(** * Depth-channel debander: a shallow embedding of [zsmooth.py] and
      [zsmooth_dynamic_range.py]

    The two scripts load a single-channel depth image, bring it to the unit
    range (global min/max normalisation in [zsmooth.py], black/white point
    remap in [zsmooth_dynamic_range.py]), run a two-scale banding reduction
    and a final edge-preserving pass, and write a float EXR.

    Conventions of the embedding.
    - A numpy array is represented by its row-major sample buffer, a
      [list float]; the shape is fixed during a run and only pointwise
      operations, whole-array reductions and the (external) bilateral filter
      act on it.  cv2 returns an array of the shape of its source, so the
      pointwise operations always meet arrays of one shape; on lists of
      unequal length they stop at the shorter one.
    - A float sample is an exact rational or one of the IEEE special values
      [+inf], [-inf], [nan].  Arithmetic on finite values is exact; rounding
      is not modelled.  The special values follow IEEE 754 as numpy applies
      it (division by zero does not raise, it returns [nan] or an infinity).
    - Numbers typed on the command line ([--boost], [--black_point], ...)
      are rationals.
    - Python exceptions are values of [exn]; a function that can raise
      returns a [result].  Scripts run in a small state-and-exception monad
      over the [world] (standard output and the files written so far).
    - cv2, PIL and OpenEXR are external: what they compute enters as
      section variables. *)

From Stdlib Require Import QArith Qcanon ZArith Lia Ascii String.
From stdpp Require Import base list numbers strings.

Open Scope Qc_scope.

(** ** Samples *)

Module Float.

Inductive float : Type :=
| Fin (q : Qc)
| PInf
| NInf
| NaN.

#[global] Instance float_eq_dec : EqDecision float.
Proof. solve_decision. Defined.

Definition is_finite (x : float) : Prop :=
  match x with Fin _ => True | _ => False end.

#[global] Instance is_finite_dec x : Decision (is_finite x).
Proof. destruct x; simpl; apply _. Defined.

Definition isnan (x : float) : bool :=
  match x with NaN => true | _ => false end.

(** [-x] *)
Definition fneg (x : float) : float :=
  match x with
  | Fin q => Fin (- q)
  | PInf => NInf
  | NInf => PInf
  | NaN => NaN
  end.

(** [x + y]; opposite infinities give [nan]. *)
Definition fadd (x y : float) : float :=
  match x, y with
  | NaN, _ | _, NaN => NaN
  | Fin a, Fin b => Fin (a + b)
  | PInf, NInf | NInf, PInf => NaN
  | PInf, _ | _, PInf => PInf
  | NInf, _ | _, NInf => NInf
  end.

(** [x - y] *)
Definition fsub (x y : float) : float := fadd x (fneg y).

(** The infinity that has the sign of [c] (the result of a comparison
    with zero); [nan] when the sign is that of zero. *)
Definition signed_inf (c : comparison) : float :=
  match c with Gt => PInf | Lt => NInf | Eq => NaN end.

(** [x * y]; zero times an infinity gives [nan]. *)
Definition fmul (x y : float) : float :=
  match x, y with
  | NaN, _ | _, NaN => NaN
  | Fin a, Fin b => Fin (a * b)
  | Fin a, PInf | PInf, Fin a => signed_inf (a ?= 0)
  | Fin a, NInf | NInf, Fin a => signed_inf (0 ?= a)
  | PInf, PInf | NInf, NInf => PInf
  | PInf, NInf | NInf, PInf => NInf
  end.

(** [x / y] as numpy computes it: no exception; [0/0] is [nan], a
    non-zero number over zero is an infinity of its sign, a number over an
    infinity is zero.  A zero denominator counts as [+0], which is what
    the subtractions of this program produce. *)
Definition fdiv (x y : float) : float :=
  match x, y with
  | NaN, _ | _, NaN => NaN
  | Fin a, Fin b =>
      if decide (b = 0) then signed_inf (a ?= 0) else Fin (a / b)
  | Fin _, (PInf | NInf) => Fin 0
  | PInf, Fin b => if decide (b < 0) then NInf else PInf
  | NInf, Fin b => if decide (b < 0) then PInf else NInf
  | (PInf | NInf), (PInf | NInf) => NaN
  end.

(** [np.abs] *)
Definition fabs (x : float) : float :=
  match x with
  | Fin q => Fin (if decide (q < 0) then - q else q)
  | PInf | NInf => PInf
  | NaN => NaN
  end.

(** [x < y]; false as soon as one side is [nan]. *)
Definition fltb (x y : float) : bool :=
  match x, y with
  | NaN, _ | _, NaN => false
  | Fin a, Fin b => bool_decide (a < b)
  | NInf, (Fin _ | PInf) => true
  | Fin _, PInf => true
  | _, _ => false
  end.

(** [x > y] *)
Definition fgtb (x y : float) : bool := fltb y x.

(** [np.minimum]: the lesser of two samples, [nan] if either is. *)
Definition fmin (x y : float) : float :=
  if isnan x || fltb x y then x else y.

(** [np.maximum]: the greater of two samples, [nan] if either is. *)
Definition fmax (x y : float) : float :=
  if isnan x || fgtb x y then x else y.

End Float.
Export Float.

(** ** Exceptions *)

Inductive exn : Type :=
| ValueError (msg : string)
| TypeError (msg : string)
| SystemExit (code : Z)
| LibraryError (msg : string).  (* cv2.error, OpenEXR and OS errors *)

Inductive result (A : Type) : Type :=
| Ok (a : A)
| Raise (e : exn).
Arguments Ok {A} a.
Arguments Raise {A} e.

#[global] Instance exn_eq_dec : EqDecision exn.
Proof. solve_decision. Defined.

#[global] Instance result_eq_dec {A} `{EqDecision A} : EqDecision (result A).
Proof. solve_decision. Defined.

Definition rbind {A B} (r : result A) (k : A -> result B) : result B :=
  match r with Ok a => k a | Raise e => Raise e end.

Notation "x <-? r ; k" := (rbind r (fun x => k))
  (at level 100, r at next level, right associativity).

(** ** Arrays *)

(** A float32 array, as its row-major sample buffer. *)
Abbreviation ndarray := (list float).

Definition zero_size_msg (op : string) : string :=
  "zero-size array to reduction operation " +:+ op +:+ " which has no identity".

(** [np.min(image)]: a reduction by [np.minimum]; an empty array raises. *)
Definition np_min (image : ndarray) : result float :=
  match image with
  | [] => Raise (ValueError (zero_size_msg "minimum"))
  | x :: xs => Ok (foldl fmin x xs)
  end.

(** [np.max(image)] *)
Definition np_max (image : ndarray) : result float :=
  match image with
  | [] => Raise (ValueError (zero_size_msg "maximum"))
  | x :: xs => Ok (foldl fmax x xs)
  end.

(** [np.clip(x, lo, hi)] on one sample: [min(max(x, lo), hi)] where a [nan]
    sample stays [nan]. *)
Definition clip1 (lo hi x : float) : float :=
  let m := if isnan x || fgtb x lo then x else lo in
  if isnan m || fltb m hi then m else hi.

Definition np_clip (image : ndarray) (lo hi : float) : ndarray :=
  clip1 lo hi <$> image.

(** [np.where(cond, a, b)] on arrays of one shape. *)
Fixpoint np_where (cond : list bool) (a b : ndarray) : ndarray :=
  match cond, a, b with
  | c :: cond', x :: a', y :: b' => (if c then x else y) :: np_where cond' a' b'
  | _, _, _ => []
  end.

(** ** Functions shared by the two scripts *)

(** [normalize_image]:
    [(image - np.min(image)) / (np.max(image) - np.min(image))]. *)
Definition normalize_image (image : ndarray) : result ndarray :=
  lo <-? np_min image;
  let num := (fun x => fsub x lo) <$> image in
  hi <-? np_max image;
  lo' <-? np_min image;
  let den := fsub hi lo' in
  Ok ((fun x => fdiv x den) <$> num).

Definition float_none_msg : string :=
  "float() argument must be a string or a real number, not 'NoneType'".

(** [float(x)] of an optional command-line number: [None] raises. *)
Definition py_float (x : option Qc) : result Qc :=
  match x with
  | Some q => Ok q
  | None => Raise (TypeError float_none_msg)
  end.

Definition range_msg : string :=
  "White point must be greater than black point".

(** [extend_dynamic_range] of [zsmooth_dynamic_range.py]. *)
Definition extend_dynamic_range (image : ndarray)
    (black_point white_point : option Qc) : result ndarray :=
  black_point <-? py_float black_point;
  white_point <-? py_float white_point;
  if bool_decide (white_point <= black_point) then
    Raise (ValueError range_msg)
  else
    let image := np_clip image (Fin black_point) (Fin white_point) in
    let image :=
      (fun x => fdiv (fsub x (Fin black_point))
                     (fsub (Fin white_point) (Fin black_point))) <$> image in
    Ok image.

Definition Z2Qc (z : Z) : Qc := Q2Qc (inject_Z z).

Section Filters.

(** [cv2.bilateralFilter(src, d, sigmaColor, sigmaSpace)]. *)
Variable bilateralFilter : ndarray -> Z -> Qc -> Qc -> ndarray.

(** The local [result] of [reduce_banding]: the blend of the boosted fine
    layer and the large-scale layer, before the final normalisation. *)
Definition blended (image : ndarray) (large_scale fine_scale : Z)
    (boost detail_threshold : Qc) : ndarray :=
  let large_smooth :=
    bilateralFilter image large_scale (Q2Qc (1 # 10)) (Z2Qc large_scale) in
  let fine_smooth :=
    bilateralFilter image fine_scale (Q2Qc (1 # 10)) (Z2Qc fine_scale) in
  let detail := zip_with fsub image fine_smooth in
  let boosted :=
    zip_with fadd fine_smooth ((fun d => fmul d (Fin boost)) <$> detail) in
  np_where ((fun d => fgtb (fabs d) (Fin detail_threshold)) <$> detail)
           boosted large_smooth.

(** [reduce_banding], identical in the two scripts. *)
Definition reduce_banding (image : ndarray) (large_scale fine_scale : Z)
    (boost detail_threshold : Qc) : result ndarray :=
  let large_smooth :=
    bilateralFilter image large_scale (Q2Qc (1 # 10)) (Z2Qc large_scale) in
  let fine_smooth :=
    bilateralFilter image fine_scale (Q2Qc (1 # 10)) (Z2Qc fine_scale) in
  let detail := zip_with fsub image fine_smooth in
  let boosted :=
    zip_with fadd fine_smooth ((fun d => fmul d (Fin boost)) <$> detail) in
  let result :=
    np_where ((fun d => fgtb (fabs d) (Fin detail_threshold)) <$> detail)
             boosted large_smooth in
  normalize_image result.

(** [edge_preserving_smooth], identical in the two scripts. *)
Definition edge_preserving_smooth (image : ndarray)
    (spatial_sigma range_sigma : Qc) : ndarray :=
  bilateralFilter image (-1)%Z range_sigma spatial_sigma.

End Filters.

(** ** Decoding *)

Inductive dtype : Type := uint8 | uint16 | float32 | other_dtype.

#[global] Instance dtype_eq_dec : EqDecision dtype.
Proof. solve_decision. Defined.

(** What a decoder hands back: the number of axes of the array, its element
    type and its values (integers for the integer types). *)
Record decoded : Type := Decoded {
  ndim : nat;
  dtype_of : dtype;
  data : ndarray
}.

Inductive imread_flag : Type := IMREAD_ANYDEPTH | IMREAD_UNCHANGED.

(** [img.astype(np.float32)]: the values are kept. *)
Definition astype_float32 (img : decoded) : ndarray := data img.

(** [array / c] for a Python number [c]. *)
Definition div_scalar (a : ndarray) (c : Qc) : ndarray :=
  (fun x => fdiv x (Fin c)) <$> a.

Definition ascii_lower (c : ascii) : ascii :=
  let n := nat_of_ascii c in
  if (65 <=? n)%nat && (n <=? 90)%nat then ascii_of_nat (n + 32) else c.

(** [s.lower()] *)
Fixpoint lower (s : string) : string :=
  match s with
  | EmptyString => EmptyString
  | String c s' => String (ascii_lower c) (lower s')
  end.

(** [s.endswith(suffix)] *)
Definition endswith (s suffix : string) : bool :=
  let n := String.length s in
  let m := String.length suffix in
  (m <=? n)%nat && String.eqb (substring (n - m) m s) suffix.

Definition could_not_read (file_path : string) : exn :=
  ValueError ("Could not read image: " +:+ file_path).

(** ** The world a script runs in *)

Record world : Type := World {
  stdout : list string;                (* lines printed, oldest first *)
  written : list (string * ndarray)    (* EXR files written, oldest first *)
}.

#[global] Instance world_eq_dec : EqDecision world.
Proof. solve_decision. Defined.

Definition world0 : world := World [] [].

(** A script action: it may print, write files and raise. *)
Definition action (A : Type) : Type := world -> result A * world.

Definition ret {A} (a : A) : action A := fun w => (Ok a, w).

Definition bind {A B} (m : action A) (k : A -> action B) : action B :=
  fun w => match m w with
           | (Ok a, w') => k a w'
           | (Raise e, w') => (Raise e, w')
           end.

Notation "x <- m ;; k" := (bind m (fun x => k))
  (at level 100, m at next level, right associativity).
Notation "m ;; k" := (bind m (fun _ => k))
  (at level 100, right associativity).

(** A pure computation that may raise, run as an action. *)
Definition lift {A} (r : result A) : action A := fun w => (r, w).

Definition print (line : string) : action unit :=
  fun w => (Ok tt, World (stdout w ++ [line]) (written w)).

(** [sys.exit(code)] *)
Definition sys_exit {A} (code : Z) : action A := lift (Raise (SystemExit code)).

(** [str(e)] *)
Definition exn_str (e : exn) : string :=
  match e with
  | ValueError msg | TypeError msg | LibraryError msg => msg
  | SystemExit code => ""
  end.

(** [try: m  except ValueError as e: handler(e)] *)
Definition except_ValueError {A} (m : action A) (handler : exn -> action A)
    : action A :=
  fun w => match m w with
           | (Raise (ValueError msg), w') => handler (ValueError msg) w'
           | r => r
           end.

(** [try: m  except Exception as e: handler(e)]; [SystemExit] is not an
    [Exception]. *)
Definition except_Exception {A} (m : action A) (handler : exn -> action A)
    : action A :=
  fun w => match m w with
           | (Raise (SystemExit c), w') => (Raise (SystemExit c), w')
           | (Raise e, w') => handler e w'
           | r => r
           end.

(** The exit status of the interpreter after running a script: 0 on a
    normal return, the code of [SystemExit], 1 after an uncaught
    exception. *)
Definition exit_status {A} (r : result A) : Z :=
  match r with
  | Ok _ => 0%Z
  | Raise (SystemExit c) => c
  | Raise _ => 1%Z
  end.

Section Save.

(** Writing channel Y of a new EXR file through OpenEXR: [Ok] when the
    file was written, else what OpenEXR raised. *)
Variable exr_write : string -> ndarray -> result unit.

(** [save_exr], identical in the two scripts. *)
Definition save_exr (file_path : string) (image : ndarray) : action unit :=
  fun w => match exr_write file_path image with
           | Ok _ => (Ok tt, World (stdout w) (written w ++ [(file_path, image)]))
           | Raise e => (Raise e, w)
           end.

End Save.

(** ** [zsmooth.py] *)

Module Zsmooth.

Record args : Type := Args {
  input_file : string;
  output_file : string;
  large_scale : Z;
  fine_scale : Z;
  boost : Qc;
  detail_threshold : Qc;
  spatial_sigma : Qc;
  range_sigma : Qc
}.

Section Script.

Variable bilateralFilter : ndarray -> Z -> Qc -> Qc -> ndarray.
(** [cv2.imread(path, flag)]; [None] when cv2 cannot read the file. *)
Variable imread : string -> imread_flag -> option decoded.
Variable exr_write : string -> ndarray -> result unit.

Definition read_image (file_path : string) : result ndarray :=
  match imread file_path IMREAD_ANYDEPTH with
  | None => Raise (could_not_read file_path)
  | Some img => Ok (astype_float32 img)
  end.

Definition process_depth_image (input_path output_path : string)
    (large_scale fine_scale : Z)
    (boost detail_threshold spatial_sigma range_sigma : Qc) : action unit :=
  depth_map <-
    except_ValueError (lift (read_image input_path))
      (fun e => print ("Error: " +:+ exn_str e) ;; sys_exit 1) ;;
  normalized <- lift (normalize_image depth_map) ;;
  smoothed <-
    lift (reduce_banding bilateralFilter normalized large_scale fine_scale
                         boost detail_threshold) ;;
  let final :=
    edge_preserving_smooth bilateralFilter smoothed spatial_sigma
                           range_sigma in
  except_Exception (save_exr exr_write output_path final)
    (fun e => print ("Error saving EXR file: " +:+ exn_str e) ;;
              sys_exit 1).

Definition main (a : args) : action unit :=
  print ("Processing depth image: " +:+ input_file a) ;;
  print ("Output will be saved as: " +:+ output_file a) ;;
  process_depth_image (input_file a) (output_file a)
    (large_scale a) (fine_scale a) (boost a) (detail_threshold a)
    (spatial_sigma a) (range_sigma a) ;;
  print ("Processed depth image saved as " +:+ output_file a).

End Script.

End Zsmooth.

(** ** [zsmooth_dynamic_range.py] *)

Module ZsmoothDynamicRange.

Definition invalid_points_msg : string :=
  "Error: Invalid black or white point values. Please ensure 0.0 <= black_point < white_point <= 1.0".

Definition missing_point_msg : string :=
  "Error: Both black_point and white_point must be specified for dynamic range extension.".

Record args : Type := Args {
  input_file : string;
  output_file : string;
  large_scale : Z;
  fine_scale : Z;
  boost : Qc;
  detail_threshold : Qc;
  spatial_sigma : Qc;
  range_sigma : Qc;
  black_point : option Qc;   (* default None *)
  white_point : option Qc    (* default None *)
}.

Section Script.

Variable bilateralFilter : ndarray -> Z -> Qc -> Qc -> ndarray.
(** [cv2.imread(path, flag)]; [None] when cv2 cannot read the file. *)
Variable imread : string -> imread_flag -> option decoded.
(** [np.array(Image.open(path))]; [None] when PIL raises. *)
Variable Image_open : string -> option decoded.
(** [cv2.cvtColor(img, cv2.COLOR_BGR2GRAY)]. *)
Variable cvtColor_BGR2GRAY : decoded -> result decoded.
(** The float samples of channel Y of an EXR file, or what OpenEXR
    raises. *)
Variable exr_channel_Y : string -> result ndarray.
Variable exr_write : string -> ndarray -> result unit.
(** How an f-string prints a Python float. *)
Variable float_repr : Qc -> string.

Definition read_exr (file_path : string) : result ndarray :=
  exr_channel_Y file_path.

Definition read_image (file_path : string) : result ndarray :=
  if endswith (lower file_path) ".exr" then read_exr file_path
  else
    img <-? match imread file_path IMREAD_UNCHANGED with
            | Some img => Ok img
            | None =>
                match Image_open file_path with
                | Some img => Ok img
                | None => Raise (could_not_read file_path)
                end
            end;
    img <-? (if decide (ndim img = 3%nat) then cvtColor_BGR2GRAY img
             else Ok img);
    match dtype_of img with
    | uint8 => Ok (div_scalar (astype_float32 img) (Z2Qc 255))
    | uint16 => Ok (div_scalar (astype_float32 img) (Z2Qc 65535))
    | _ => Ok (astype_float32 img)
    end.

Definition process_depth_image (input_path output_path : string)
    (large_scale fine_scale : Z)
    (boost detail_threshold spatial_sigma range_sigma : Qc)
    (black_point white_point : option Qc) : action unit :=
  depth_map <-
    except_ValueError (lift (read_image input_path))
      (fun e => print ("Error: " +:+ exn_str e) ;; sys_exit 1) ;;
  (* Always extend dynamic range *)
  depth_map <-
    lift (extend_dynamic_range depth_map black_point white_point) ;;
  smoothed <-
    lift (reduce_banding bilateralFilter depth_map large_scale fine_scale
                         boost detail_threshold) ;;
  let final :=
    edge_preserving_smooth bilateralFilter smoothed spatial_sigma
                           range_sigma in
  except_Exception (save_exr exr_write output_path final)
    (fun e => print ("Error saving EXR file: " +:+ exn_str e) ;;
              sys_exit 1).

(** [f"{x}"] of an optional number. *)
Definition fmt (x : option Qc) : string :=
  match x with Some q => float_repr q | None => "None" end.

Definition main (a : args) : action unit :=
  print ("Processing depth image: " +:+ input_file a) ;;
  print ("Output will be saved as: " +:+ output_file a) ;;
  match black_point a, white_point a with
  | Some b, Some w =>
      if bool_decide (b < 0) || bool_decide (1 <= b) || bool_decide (w <= 0)
         || bool_decide (1 < w) || bool_decide (w <= b)
      then
        print invalid_points_msg ;;
        sys_exit 1
      else
        print ("Extending dynamic range: Black point = " +:+ float_repr b
               +:+ ", White point = " +:+ float_repr w)
  | None, None => ret tt
  | _, _ =>
      print missing_point_msg ;;
      sys_exit 1
  end ;;
  process_depth_image (input_file a) (output_file a)
    (large_scale a) (fine_scale a) (boost a) (detail_threshold a)
    (spatial_sigma a) (range_sigma a) (black_point a) (white_point a) ;;
  print ("Black point: " +:+ fmt (black_point a)) ;;
  print ("White point: " +:+ fmt (white_point a)) ;;
  process_depth_image (input_file a) (output_file a)
    (large_scale a) (fine_scale a) (boost a) (detail_threshold a)
    (spatial_sigma a) (range_sigma a) (black_point a) (white_point a) ;;
  print ("Processed depth image saved as " +:+ output_file a).

End Script.

End ZsmoothDynamicRange.

(** ** Vocabulary of the statements *)

(** The stages that follow the range adjustment, the same in the two
    scripts: banding reduction, final smoothing, writing the EXR file. *)
Definition later_stages
    (bilateralFilter : ndarray -> Z -> Qc -> Qc -> ndarray)
    (exr_write : string -> ndarray -> result unit)
    (output_path : string) (large_scale fine_scale : Z)
    (boost detail_threshold spatial_sigma range_sigma : Qc)
    (adjusted : ndarray) : action unit :=
  smoothed <-
    lift (reduce_banding bilateralFilter adjusted large_scale fine_scale
                         boost detail_threshold) ;;
  let final :=
    edge_preserving_smooth bilateralFilter smoothed spatial_sigma
                           range_sigma in
  except_Exception (save_exr exr_write output_path final)
    (fun e => print ("Error saving EXR file: " +:+ exn_str e) ;;
              sys_exit 1).

(** Decoding as the scripts wrap it: a [ValueError] is reported and ends the
    run with status 1. *)
Definition load (read_image : string -> result ndarray) (input_path : string)
    : action ndarray :=
  except_ValueError (lift (read_image input_path))
    (fun e => print ("Error: " +:+ exn_str e) ;; sys_exit 1).

(** Every sample is a number of the exact arithmetic (no infinity, no
    [nan]). *)
Definition real_image (img : ndarray) : Prop := Forall is_finite img.

(** Two samples of the image differ. *)
Definition non_constant (img : ndarray) : Prop :=
  exists x y, x ∈ img /\ y ∈ img /\ x <> y.

(** Every sample of the image is [c]. *)
Definition constant (c : float) (img : ndarray) : Prop :=
  Forall (fun x => x = c) img.

(** A sample is a number between [lo] and [hi]. *)
Definition within (lo hi : Qc) (x : float) : Prop :=
  match x with Fin q => lo <= q /\ q <= hi | _ => False end.




(** An exception that [except Exception] catches: any but [SystemExit]. *)
Definition is_Exception (e : exn) : Prop :=
  match e with SystemExit _ => False | _ => True end.

(** An exception that [except ValueError] lets through. *)
Definition not_ValueError (e : exn) : Prop :=
  match e with ValueError _ => False | _ => True end.

(** The linear map that sends [lo] to 0 and [hi] to 1, on rationals. *)
Definition remap (lo hi q : Qc) : Qc := (q - lo) / (hi - lo).

(** The same map as the scripts compute it on a sample:
    [(x - lo) / (hi - lo)]. *)
Definition fremap (lo hi x : float) : float := fdiv (fsub x lo) (fsub hi lo).

(** The rational [n/d], for concrete arrays. *)
Definition qc (n : Z) (d : positive) : Qc := Q2Qc (n # d).

(** A small stand-in for the bilateral filter, used to run the functions on
    concrete arrays: the mean of a sample and its two neighbours (the border
    is replicated), whatever the parameters. *)
Definition mean3 (image : ndarray) (d : Z) (sigmaColor sigmaSpace : Qc)
    : ndarray :=
  match image with
  | [] => []
  | x :: _ =>
      let left := x :: image in
      let right := drop 1 image ++ [List.last image x] in
      zip_with (fun l cr => fdiv (fadd l (fadd cr.1 cr.2)) (Fin (Z2Qc 3)))
               left (zip image right)
  end.

(** Stand-ins for the libraries, used to run the scripts: a file system
    that holds one decodable image whatever the path, a converter that keeps
    the first of three channels, an EXR writer that always succeeds. *)
Definition one_image (img : decoded) (path : string) (flag : imread_flag)
    : option decoded := Some img.

Definition no_image (path : string) : option decoded := None.

Definition first_channel (img : decoded) : result decoded :=
  Ok (Decoded 2 (dtype_of img)
        ((fun p => p.2) <$> filter (fun p => (p.1 mod 3 =? 0)%nat)
                                   (imap pair (data img)))).

Definition no_exr (path : string) : result ndarray :=
  Raise (LibraryError ("Cannot open image file " +:+ path)).

Definition write_ok (path : string) (image : ndarray) : result unit := Ok tt.

Definition repr_stub (q : Qc) : string := "<float>".

(** A default command line of [zsmooth_dynamic_range.py], but for the two
    bounds. *)
Definition dr_args (black_point white_point : option Qc)
    : ZsmoothDynamicRange.args :=
  ZsmoothDynamicRange.Args "input.png" "output.exr" 15 3 (qc 3 2) (qc 1 50)
    (qc 50 1) (qc 1 10) black_point white_point.

(** A four-pixel 8-bit image. *)
Definition gray8 : decoded :=
  Decoded 2 uint8 [Fin (qc 0 1); Fin (qc 51 1); Fin (qc 204 1); Fin (qc 255 1)].

Definition write_denied (path : string) (image : ndarray) : result unit :=
  Raise (LibraryError ("Cannot open image file " +:+ path)).

(** A default command line of [zsmooth.py]. *)
Definition z_args (input_file : string) : Zsmooth.args :=
  Zsmooth.Args input_file "output.exr" 15 3 (qc 3 2) (qc 1 50) (qc 50 1)
               (qc 1 10).

(** The filter that returns its input. *)
Definition no_filter (image : ndarray) (d : Z) (sigmaColor sigmaSpace : Qc)
    : ndarray := image.

(** * Properties *)

(** ** Arithmetic of the rationals *)

Section QcFacts.

Lemma Qc_sub_eq_0 (a b : Qc) : a - b = 0 <-> a = b.
Proof.
  split; intros H.
  - rewrite <- (Qcplus_0_l b), <- H. ring.
  - subst. ring.
Qed.

Lemma Qc_sub_pos (a b : Qc) : a < b -> 0 < b - a.
Proof. intros H. apply Qclt_minus_iff in H. exact H. Qed.

Lemma Qc_sub_nonneg (a b : Qc) : a <= b -> 0 <= b - a.
Proof. intros H. apply Qcle_minus_iff in H. exact H. Qed.

Lemma Qc_div_nonneg (a d : Qc) : 0 <= a -> 0 < d -> 0 <= a / d.
Proof.
  intros Ha Hd. unfold Qcdiv.
  apply Qcmult_nonneg_nonneg; [exact Ha|].
  apply Qclt_le_weak, Qcinv_pos, Hd.
Qed.

Lemma Qc_div_le_1 (a d : Qc) : a <= d -> 0 < d -> a / d <= 1.
Proof.
  intros Ha Hd. unfold Qcdiv.
  assert (Hne : d <> 0) by (intros ->; exact (irreflexivity Qclt _ Hd)).
  rewrite <- (Qcmult_inv_r d Hne).
  apply Qcmult_le_compat_r; [exact Ha|].
  apply Qclt_le_weak, Qcinv_pos, Hd.
Qed.

Lemma Qc_div_self (d : Qc) : d <> 0 -> d / d = 1.
Proof. intros H. unfold Qcdiv. apply Qcmult_inv_r, H. Qed.

Lemma Qc_zero_div (d : Qc) : 0 / d = 0.
Proof. unfold Qcdiv. ring. Qed.

(** The remap of a value of [[lo, hi]] lies in the unit interval. *)
Lemma remap_unit (lo hi q : Qc) :
  lo < hi -> lo <= q -> q <= hi ->
  0 <= (q - lo) / (hi - lo) /\ (q - lo) / (hi - lo) <= 1.
Proof.
  intros Hlt Hlo Hhi. split.
  - apply Qc_div_nonneg; [apply Qc_sub_nonneg, Hlo | apply Qc_sub_pos, Hlt].
  - apply Qc_div_le_1; [|apply Qc_sub_pos, Hlt].
    unfold Qcminus. apply Qcplus_le_mono_r, Hhi.
Qed.

End QcFacts.

(** ** Reductions over real-valued arrays *)

Section Reductions.

Lemma fmin_fin (a b : Qc) :
  fmin (Fin a) (Fin b) = Fin (if decide (a < b) then a else b).
Proof.
  unfold fmin; simpl. destruct (decide (a < b)) as [H|H].
  - rewrite bool_decide_eq_true_2; auto.
  - rewrite bool_decide_eq_false_2; auto.
Qed.

Lemma fmax_fin (a b : Qc) :
  fmax (Fin a) (Fin b) = Fin (if decide (b < a) then a else b).
Proof.
  unfold fmax, fgtb; simpl. destruct (decide (b < a)) as [H|H].
  - rewrite bool_decide_eq_true_2; auto.
  - rewrite bool_decide_eq_false_2; auto.
Qed.

Lemma is_finite_inv (x : float) : is_finite x -> exists q, x = Fin q.
Proof. destruct x; simpl; intros H; try contradiction. eauto. Qed.

(** Folding [np.minimum] over numbers returns a least one of them. *)
Lemma foldl_fmin_real (xs : ndarray) : forall a : Qc,
  real_image xs ->
  exists m, foldl fmin (Fin a) xs = Fin m /\
            Fin m ∈ Fin a :: xs /\
            forall q, Fin q ∈ Fin a :: xs -> m <= q.
Proof.
  induction xs as [|x xs IH]; intros a Hreal.
  - exists a. simpl. split; [reflexivity|]. split; [left|].
    intros q Hq. apply list_elem_of_singleton in Hq.
    injection Hq as ->. apply Qcle_refl.
  - apply Forall_cons in Hreal as [Hx Hxs].
    destruct (is_finite_inv x Hx) as [b ->].
    simpl. rewrite fmin_fin.
    destruct (IH (if decide (a < b) then a else b) Hxs)
      as (m & Hm & Hin & Hle).
    exists m. split; [exact Hm|]. split.
    + apply elem_of_cons in Hin as [Hin|Hin].
      * rewrite Hin. destruct (decide (a < b)); [left | right; left].
      * right; right; exact Hin.
    + intros q Hq.
      assert (Hmin : m <= (if decide (a < b) then a else b))
        by (apply Hle; left).
      apply elem_of_cons in Hq as [Hq|Hq].
      * injection Hq as ->. destruct (decide (a < b)) as [H|H]; [exact Hmin|].
        apply Qcnot_lt_le in H. eapply Qcle_trans; eauto.
      * apply elem_of_cons in Hq as [Hq|Hq].
        -- injection Hq as ->. destruct (decide (a < b)) as [H|H];
             [|exact Hmin].
           eapply Qcle_trans; [exact Hmin|]. apply Qclt_le_weak, H.
        -- apply Hle. right; exact Hq.
Qed.

(** Folding [np.maximum] over numbers returns a greatest one of them. *)
Lemma foldl_fmax_real (xs : ndarray) : forall a : Qc,
  real_image xs ->
  exists m, foldl fmax (Fin a) xs = Fin m /\
            Fin m ∈ Fin a :: xs /\
            forall q, Fin q ∈ Fin a :: xs -> q <= m.
Proof.
  induction xs as [|x xs IH]; intros a Hreal.
  - exists a. simpl. split; [reflexivity|]. split; [left|].
    intros q Hq. apply list_elem_of_singleton in Hq.
    injection Hq as ->. apply Qcle_refl.
  - apply Forall_cons in Hreal as [Hx Hxs].
    destruct (is_finite_inv x Hx) as [b ->].
    simpl. rewrite fmax_fin.
    destruct (IH (if decide (b < a) then a else b) Hxs)
      as (m & Hm & Hin & Hle).
    exists m. split; [exact Hm|]. split.
    + apply elem_of_cons in Hin as [Hin|Hin].
      * rewrite Hin. destruct (decide (b < a)); [left | right; left].
      * right; right; exact Hin.
    + intros q Hq.
      assert (Hmax : (if decide (b < a) then a else b) <= m)
        by (apply Hle; left).
      apply elem_of_cons in Hq as [Hq|Hq].
      * injection Hq as ->. destruct (decide (b < a)) as [H|H]; [exact Hmax|].
        apply Qcnot_lt_le in H. eapply Qcle_trans; eauto.
      * apply elem_of_cons in Hq as [Hq|Hq].
        -- injection Hq as ->. destruct (decide (b < a)) as [H|H];
             [|exact Hmax].
           eapply Qcle_trans; [|exact Hmax]. apply Qclt_le_weak, H.
        -- apply Hle. right; exact Hq.
Qed.

(** [np.min] of a non-empty real-valued array is its least sample. *)
Lemma np_min_real (img : ndarray) :
  real_image img -> img <> [] ->
  exists m, np_min img = Ok (Fin m) /\ Fin m ∈ img /\
            forall q, Fin q ∈ img -> m <= q.
Proof.
  intros Hreal Hne. destruct img as [|x xs]; [congruence|].
  apply Forall_cons in Hreal as [Hx Hxs].
  destruct (is_finite_inv x Hx) as [a ->].
  destruct (foldl_fmin_real xs a Hxs) as (m & Hm & Hin & Hle).
  exists m. simpl. rewrite Hm. auto.
Qed.

(** [np.max] of a non-empty real-valued array is its greatest sample. *)
Lemma np_max_real (img : ndarray) :
  real_image img -> img <> [] ->
  exists m, np_max img = Ok (Fin m) /\ Fin m ∈ img /\
            forall q, Fin q ∈ img -> q <= m.
Proof.
  intros Hreal Hne. destruct img as [|x xs]; [congruence|].
  apply Forall_cons in Hreal as [Hx Hxs].
  destruct (is_finite_inv x Hx) as [a ->].
  destruct (foldl_fmax_real xs a Hxs) as (m & Hm & Hin & Hle).
  exists m. simpl. rewrite Hm. auto.
Qed.

(** The least sample of a real-valued array is determined by being a
    sample below all samples. *)
Lemma np_min_unique (img : ndarray) (m : Qc) :
  real_image img -> Fin m ∈ img -> (forall q, Fin q ∈ img -> m <= q) ->
  np_min img = Ok (Fin m).
Proof.
  intros Hreal Hin Hle.
  assert (Hne : img <> []) by (intros ->; inversion Hin).
  destruct (np_min_real img Hreal Hne) as (m' & Hm' & Hin' & Hle').
  rewrite Hm'. do 2 f_equal. apply Qcle_antisym; auto.
Qed.

Lemma np_max_unique (img : ndarray) (m : Qc) :
  real_image img -> Fin m ∈ img -> (forall q, Fin q ∈ img -> q <= m) ->
  np_max img = Ok (Fin m).
Proof.
  intros Hreal Hin Hle.
  assert (Hne : img <> []) by (intros ->; inversion Hin).
  destruct (np_max_real img Hreal Hne) as (m' & Hm' & Hin' & Hle').
  rewrite Hm'. do 2 f_equal. apply Qcle_antisym; auto.
Qed.

(** In a non-constant real-valued array the least sample is strictly
    below the greatest. *)
Lemma non_constant_min_lt_max (img : ndarray) (lo hi : Qc) :
  real_image img -> non_constant img ->
  np_min img = Ok (Fin lo) -> np_max img = Ok (Fin hi) ->
  (forall q, Fin q ∈ img -> lo <= q) ->
  (forall q, Fin q ∈ img -> q <= hi) ->
  lo < hi.
Proof.
  intros Hreal (x & y & Hx & Hy & Hxy) _ _ Hlo Hhi.
  pose proof (proj1 (Forall_forall _ _) Hreal) as Hfin.
  destruct (is_finite_inv x (Hfin x Hx)) as [a ->].
  destruct (is_finite_inv y (Hfin y Hy)) as [b ->].
  apply Qcnot_le_lt. intros Hle.
  apply Hxy. f_equal.
  assert (Ha : a = lo).
  { apply Qcle_antisym; [|auto]. eapply Qcle_trans; [apply Hhi, Hx|exact Hle]. }
  assert (Hb : b = lo).
  { apply Qcle_antisym; [|auto]. eapply Qcle_trans; [apply Hhi, Hy|exact Hle]. }
  congruence.
Qed.

End Reductions.

(** ** The normaliser *)

Section Normalizer.

Lemma fremap_fin (lo hi q : Qc) :
  lo <> hi -> fremap (Fin lo) (Fin hi) (Fin q) = Fin (remap lo hi q).
Proof.
  intros Hne. unfold fremap, remap, fsub; simpl.
  destruct (decide (hi + - lo = 0)) as [H|H]; [|reflexivity].
  exfalso. apply Hne. symmetry. apply Qc_sub_eq_0. exact H.
Qed.

(** The formula of [normalize_image], for every non-empty array. *)
Lemma normalize_image_formula (img : ndarray) (lo hi : float) :
  np_min img = Ok lo -> np_max img = Ok hi ->
  normalize_image img = Ok (fremap lo hi <$> img).
Proof.
  intros Hlo Hhi. unfold normalize_image. rewrite Hlo, Hhi. simpl.
  f_equal. rewrite <- list_fmap_compose. reflexivity.
Qed.

Lemma real_image_fremap (img : ndarray) (lo hi : Qc) :
  lo <> hi -> real_image img -> real_image (fremap (Fin lo) (Fin hi) <$> img).
Proof.
  intros Hne Hreal. apply Forall_fmap. eapply Forall_impl; [exact Hreal|].
  intros x Hx. destruct (is_finite_inv x Hx) as [q ->].
  simpl. rewrite fremap_fin by exact Hne. exact I.
Qed.

Lemma elem_of_fremap (img : ndarray) (lo hi q : Qc) :
  lo <> hi -> Fin q ∈ img -> Fin (remap lo hi q) ∈ fremap (Fin lo) (Fin hi) <$> img.
Proof.
  intros Hne Hin. rewrite <- (fremap_fin lo hi q Hne).
  apply list_elem_of_fmap_2, Hin.
Qed.

Lemma remap_lo (lo hi : Qc) : remap lo hi lo = 0.
Proof.
  unfold remap. replace (lo - lo) with (Q2Qc 0) by ring. apply Qc_zero_div.
Qed.

Lemma remap_hi (lo hi : Qc) : lo <> hi -> remap lo hi hi = 1.
Proof.
  intros Hne. unfold remap. apply Qc_div_self.
  intros H. apply Hne. symmetry. apply Qc_sub_eq_0, H.
Qed.

(** Remapping a real-valued array from the interval spanned by two of its
    samples gives an array of least sample 0 and greatest sample 1. *)
Lemma fremap_min_max (img : ndarray) (lo hi : Qc) :
  real_image img -> lo < hi -> Fin lo ∈ img -> Fin hi ∈ img ->
  (forall q, Fin q ∈ img -> lo <= q /\ q <= hi) ->
  np_min (fremap (Fin lo) (Fin hi) <$> img) = Ok (Fin 0) /\
  np_max (fremap (Fin lo) (Fin hi) <$> img) = Ok (Fin 1).
Proof.
  intros Hreal Hlt Hlo Hhi Hin.
  assert (Hne : lo <> hi) by (intros ->; exact (irreflexivity Qclt _ Hlt)).
  assert (Hbound : forall q, Fin q ∈ fremap (Fin lo) (Fin hi) <$> img ->
                             0 <= q /\ q <= 1).
  { intros q Hq. apply list_elem_of_fmap in Hq as (x & Hx & Hxin).
    pose proof (proj1 (Forall_forall _ _) Hreal x Hxin) as Hfx.
    destruct (is_finite_inv x Hfx) as [p ->].
    rewrite fremap_fin in Hx by exact Hne. injection Hx as ->.
    destruct (Hin p Hxin). apply remap_unit; assumption. }
  split.
  - apply np_min_unique.
    + apply real_image_fremap; assumption.
    + rewrite <- (remap_lo lo hi). apply elem_of_fremap; assumption.
    + intros q Hq. apply Hbound, Hq.
  - apply np_max_unique.
    + apply real_image_fremap; assumption.
    + rewrite <- (remap_hi lo hi Hne). apply elem_of_fremap; assumption.
    + intros q Hq. apply Hbound, Hq.
Qed.

(** What [normalize_image] does on a non-constant real-valued array. *)
Lemma normalize_image_real (img : ndarray) :
  real_image img -> non_constant img ->
  exists lo hi,
    np_min img = Ok (Fin lo) /\ np_max img = Ok (Fin hi) /\ lo < hi /\
    normalize_image img = Ok (fremap (Fin lo) (Fin hi) <$> img) /\
    real_image (fremap (Fin lo) (Fin hi) <$> img) /\
    np_min (fremap (Fin lo) (Fin hi) <$> img) = Ok (Fin 0) /\
    np_max (fremap (Fin lo) (Fin hi) <$> img) = Ok (Fin 1).
Proof.
  intros Hreal Hnc.
  assert (Hne : img <> []).
  { destruct Hnc as (x & _ & Hx & _). intros ->. inversion Hx. }
  destruct (np_min_real img Hreal Hne) as (lo & Hlo & Hloin & Hlole).
  destruct (np_max_real img Hreal Hne) as (hi & Hhi & Hhiin & Hhile).
  assert (Hlt : lo < hi)
    by (eapply non_constant_min_lt_max; eauto).
  assert (Hneq : lo <> hi) by (intros ->; exact (irreflexivity Qclt _ Hlt)).
  exists lo, hi. repeat split; try assumption.
  - apply normalize_image_formula; assumption.
  - apply real_image_fremap; assumption.
  - apply fremap_min_max; auto.
  - apply fremap_min_max; auto.
Qed.

(** An array of least sample 0 and greatest sample 1 is left as it is. *)
Lemma normalize_image_unit (img : ndarray) :
  real_image img -> np_min img = Ok (Fin 0) -> np_max img = Ok (Fin 1) ->
  normalize_image img = Ok img.
Proof.
  intros Hreal Hlo Hhi.
  rewrite (normalize_image_formula img _ _ Hlo Hhi). f_equal.
  rewrite <- (list_fmap_id img) at 2.
  apply Forall_fmap_ext_1. eapply Forall_impl; [exact Hreal|].
  intros x Hx. destruct (is_finite_inv x Hx) as [q ->].
  rewrite fremap_fin by (intros H; discriminate H).
  simpl. f_equal. unfold remap. field. intros H; discriminate H.
Qed.



(** C10.  In exact arithmetic the normaliser is idempotent on
    non-constant images: normalising the normalised image returns it
    unchanged. *)
Theorem normalize_image_idempotent (img : ndarray) :
  real_image img -> non_constant img ->
  exists out, normalize_image img = Ok out /\ normalize_image out = Ok out.
Proof.
  intros Hreal Hnc.
  destruct (normalize_image_real img Hreal Hnc)
    as (lo & hi & _ & _ & _ & Hnorm & Hreal' & Hmin & Hmax).
  eexists. split; [exact Hnorm|].
  apply normalize_image_unit; assumption.
Qed.

Lemma normalize_image_idempotent_witness :
  let img := [Fin (qc 3 1); Fin (qc (-1) 2); Fin (qc 7 4); Fin (qc 3 1)] in
  real_image img /\ non_constant img /\
  exists out, normalize_image img = Ok out /\ normalize_image out = Ok out.
Proof.
  intros img.
  assert (Hreal : real_image img) by (repeat constructor).
  assert (Hnc : non_constant img).
  { exists (Fin (qc 3 1)), (Fin (qc (-1) 2)).
    split; [left|]. split; [right; left|]. vm_compute. discriminate. }
  split; [exact Hreal|]. split; [exact Hnc|].
  exact (normalize_image_idempotent img Hreal Hnc).
Defined.

(** The normaliser at work on a three-sample array. *)
Example normalize_image_ex :
  normalize_image [Fin (qc 1 5); Fin (qc 1 2); Fin (qc 4 5)]
  = Ok [Fin 0; Fin (qc 1 2); Fin 1].
Proof. compute_done. Qed.

End Normalizer.

(** ** Banding reduction *)

Section BandingReducer.

Variable bilateralFilter : ndarray -> Z -> Qc -> Qc -> ndarray.

Lemma np_where_lookup (cond : list bool) :
  forall (a b : ndarray) (i : nat) (c : bool) (x y : float),
  cond !! i = Some c -> a !! i = Some x -> b !! i = Some y ->
  np_where cond a b !! i = Some (if c then x else y).
Proof.
  induction cond as [|c0 cond IH]; intros a b i c x y Hc Ha Hb.
  - destruct i; discriminate Hc.
  - destruct a as [|x0 a]; [destruct i; discriminate Ha|].
    destruct b as [|y0 b]; [destruct i; discriminate Hb|].
    destruct i as [|i]; simplify_eq/=.
    + reflexivity.
    + eapply IH; eassumption.
Qed.

Lemma np_where_length (cond : list bool) : forall a b : ndarray,
  length cond = length a -> length b = length a ->
  length (np_where cond a b) = length a.
Proof.
  induction cond as [|c0 cond IH]; intros a b Hc Hb.
  - destruct a; [reflexivity | discriminate Hc].
  - destruct a as [|x0 a]; [discriminate Hc|].
    destruct b as [|y0 b]; [discriminate Hb|].
    simpl in *. f_equal. apply IH; lia.
Qed.






(** The last step of [reduce_banding] is the normaliser, applied to the
    blend whatever the arguments. *)
Lemma reduce_banding_unfold image large_scale fine_scale boost detail_threshold :
  reduce_banding bilateralFilter image large_scale fine_scale boost
                 detail_threshold
  = normalize_image (blended bilateralFilter image large_scale fine_scale
                             boost detail_threshold).
Proof. reflexivity. Qed.


End BandingReducer.


(** The blend on a four-sample array with the stand-in filter: the spike and
    its neighbours keep their boosted detail, the flat border takes the
    smooth layer. *)
Example blended_ex :
  blended mean3 [Fin (qc 1 10); Fin (qc 1 10); Fin (qc 9 10); Fin (qc 1 10)]
          15 3 (qc 3 2) (qc 1 50)
  = [Fin (qc 1 10); Fin (qc (-1) 30); Fin (qc 7 6); Fin (qc (-1) 30)].
Proof. compute_done. Qed.

(** ** The stand-in filter keeps shape and real samples *)

Section StandIn.



Lemma mean3_length image d sigmaColor sigmaSpace :
  length (mean3 image d sigmaColor sigmaSpace) = length image.
Proof.
  destruct image as [|x xs]; [reflexivity|].
  unfold mean3. rewrite length_zip_with, length_zip_with.
  rewrite length_app, length_drop. cbn [length]. lia.
Qed.


End StandIn.

(** ** Renormalisation after the blend *)

Section Renormalisation.

Variable bilateralFilter : ndarray -> Z -> Qc -> Qc -> ndarray.

(** The filter averages samples: from real samples it makes real samples. *)
Hypothesis filter_real : forall image d sigmaColor sigmaSpace,
  real_image image -> real_image (bilateralFilter image d sigmaColor sigmaSpace).



End Renormalisation.


(** Banding reduction with a boost of 5 on a four-sample array: the blend
    leaves the unit range on both sides, the result is back in it. *)
Example reduce_banding_ex :
  let image := [Fin (qc 1 10); Fin (qc 1 10); Fin (qc 9 10); Fin (qc 1 10)] in
  blended mean3 image 15 3 (qc 5 1) (qc 1 50)
  = [Fin (qc 1 10); Fin (qc (-29) 30); Fin (qc 91 30); Fin (qc (-29) 30)] /\
  reduce_banding mean3 image 15 3 (qc 5 1) (qc 1 50)
  = Ok [Fin (qc 4 15); Fin 0; Fin 1; Fin 0].
Proof. intros image. split; compute_done. Qed.

(** ** Dynamic range extension *)

Section DynamicRangeExtender.

Variables black white : Qc.









Lemma Qclt_neq (a b : Qc) : a < b -> a <> b.
Proof. intros H ->. exact (irreflexivity Qclt _ H). Qed.


End DynamicRangeExtender.


(** Black point 0.2 and white point 0.8 on six samples, two of them outside
    the range and one infinite. *)
Example extend_dynamic_range_ex :
  extend_dynamic_range
    [Fin 0; Fin (qc 1 5); Fin (qc 1 2); Fin (qc 4 5); Fin 1; PInf]
    (Some (qc 1 5)) (Some (qc 4 5))
  = Ok [Fin 0; Fin 0; Fin (qc 1 2); Fin 1; Fin 1; Fin 1].
Proof. compute_done. Qed.

Section Stretch.

Variables black white : Qc.
Hypothesis bounds_in_order : black < white.



End Stretch.


(** Scenario B: bounds 0.2 and 0.8 on an image that spans them. *)
Example extend_dynamic_range_stretch_ex :
  let image := [Fin (qc 1 5); Fin (qc 1 2); Fin (qc 4 5); Fin (qc 7 20)] in
  extend_dynamic_range image (Some (qc 1 5)) (Some (qc 4 5))
  = Ok [Fin 0; Fin (qc 1 2); Fin 1; Fin (qc 1 4)] /\
  normalize_image image = Ok [Fin 0; Fin (qc 1 2); Fin 1; Fin (qc 1 4)].
Proof. intros image. split; compute_done. Qed.

(** ** Constant images *)

Section ConstantImage.

Lemma fmin_self (c : float) : fmin c c = c.
Proof. unfold fmin. destruct (isnan c || fltb c c); reflexivity. Qed.

Lemma fmax_self (c : float) : fmax c c = c.
Proof. unfold fmax. destruct (isnan c || fgtb c c); reflexivity. Qed.

Lemma foldl_replicate_self (f : float -> float -> float) (c : float) (k : nat) :
  f c c = c -> foldl f c (replicate k c) = c.
Proof. intros Hf. induction k as [|k IH]; simpl; [|rewrite Hf]; auto. Qed.

Lemma constant_replicate (c : float) (img : ndarray) :
  constant c img -> img = replicate (length img) c.
Proof.
  intros H. induction H as [|x img -> _ IH]; simpl; [reflexivity|].
  f_equal. exact IH.
Qed.

Lemma np_min_constant (c : float) (k : nat) :
  np_min (replicate (S k) c) = Ok c.
Proof. simpl. f_equal. apply foldl_replicate_self, fmin_self. Qed.

Lemma np_max_constant (c : float) (k : nat) :
  np_max (replicate (S k) c) = Ok c.
Proof. simpl. f_equal. apply foldl_replicate_self, fmax_self. Qed.

(** The denominator of the normaliser on a constant image of numbers. *)
Lemma fsub_self_fin (q : Qc) : fsub (Fin q) (Fin q) = Fin 0.
Proof. unfold fsub; simpl. f_equal. apply Qcplus_opp_r. Qed.

(** [(c - c) / (c - c)] is [nan], whatever [c]. *)
Lemma fremap_self (c : float) : fremap c c c = NaN.
Proof.
  unfold fremap. destruct c as [q| | |]; try reflexivity.
  rewrite fsub_self_fin. reflexivity.
Qed.

(** The normaliser turns every non-empty constant image into an image of
    [nan], without raising. *)
Lemma normalize_image_constant (c : float) (img : ndarray) :
  img <> [] -> constant c img ->
  normalize_image img = Ok (replicate (length img) NaN).
Proof.
  intros Hne Hc. rewrite (constant_replicate c img Hc) at 1.
  destruct img as [|x img]; [congruence|]. cbn [length].
  rewrite (normalize_image_formula _ c c)
    by (apply np_min_constant || apply np_max_constant).
  f_equal. rewrite fmap_replicate, fremap_self. reflexivity.
Qed.

Lemma np_where_all_false (a b : ndarray) :
  length a = length b -> np_where (replicate (length b) false) a b = b.
Proof.
  revert a. induction b as [|y b IH]; intros a Hlen; [reflexivity|].
  destruct a as [|x a]; [discriminate Hlen|].
  simpl. f_equal. apply IH. simpl in Hlen. lia.
Qed.

Lemma zip_with_fsub_nan (n : nat) : forall fine : ndarray,
  length fine = n -> zip_with fsub (replicate n NaN) fine = replicate n NaN.
Proof.
  induction n as [|n IH]; intros fine Hlen; [reflexivity|].
  destruct fine as [|y fine]; [discriminate Hlen|].
  simpl. f_equal. apply IH. simpl in Hlen. lia.
Qed.

Variable bilateralFilter : ndarray -> Z -> Qc -> Qc -> ndarray.

(** cv2 returns an array of the size of its source. *)
Hypothesis filter_shape : forall image d sigmaColor sigmaSpace,
  length (bilateralFilter image d sigmaColor sigmaSpace) = length image.

(** On an image of [nan] the detail layer is [nan] everywhere, no pixel
    passes the threshold test and the blend is the large-scale layer. *)
Lemma blended_nan (n : nat) large_scale fine_scale boost detail_threshold :
  blended bilateralFilter (replicate n NaN) large_scale fine_scale boost
          detail_threshold
  = bilateralFilter (replicate n NaN) large_scale (Q2Qc (1 # 10))
                    (Z2Qc large_scale).
Proof.
  unfold blended.
  rewrite zip_with_fsub_nan by (rewrite filter_shape; apply length_replicate).
  rewrite !fmap_replicate. simpl.
  set (large := bilateralFilter (replicate n NaN) large_scale _ _).
  assert (Hlen : length large = n)
    by (unfold large; rewrite filter_shape; apply length_replicate).
  rewrite <- Hlen at 1. apply np_where_all_false.
  rewrite length_zip_with, filter_shape, !length_replicate. lia.
Qed.

Lemma normalize_image_nonempty (img : ndarray) :
  img <> [] -> exists out, normalize_image img = Ok out.
Proof.
  intros Hne. destruct img as [|x img]; [congruence|].
  unfold normalize_image. simpl. eauto.
Qed.

End ConstantImage.

Section ConstantInput.

Variable bilateralFilter : ndarray -> Z -> Qc -> Qc -> ndarray.
Variable imread : string -> imread_flag -> option decoded.
Variable exr_write : string -> ndarray -> result unit.

(** cv2 returns an array of the size of its source. *)
Hypothesis filter_shape : forall image d sigmaColor sigmaSpace,
  length (bilateralFilter image d sigmaColor sigmaSpace) = length image.

(** C9.  On a perfectly constant image the denominator of the normaliser is
    zero and nothing guards the division: [normalize_image] raises nothing
    and returns an image of [nan].  In [zsmooth.py] that image goes on
    through the pipeline: the banding reduction sees [nan] everywhere and
    renormalises its large-scale layer, the final pass runs and the file is
    written, the run ending without an error.  When the filter leaves the
    [nan] image as it is, the written image is all [nan]. *)
Theorem constant_image_nan_propagates (input_path output_path : string)
    (large_scale fine_scale : Z)
    (boost detail_threshold spatial_sigma range_sigma : Qc)
    (img : decoded) (c : float) :
  imread input_path IMREAD_ANYDEPTH = Some img ->
  data img <> [] ->
  constant c (data img) ->
  (forall image, exr_write output_path image = Ok tt) ->
  let nans := replicate (length (data img)) NaN in
  (forall q, c = Fin q ->
     np_min (data img) = Ok c /\ np_max (data img) = Ok c /\
     fsub c c = Fin 0) /\
  normalize_image (data img) = Ok nans /\
  exists smoothed,
    reduce_banding bilateralFilter nans large_scale fine_scale boost
                   detail_threshold = Ok smoothed /\
    Zsmooth.process_depth_image bilateralFilter imread exr_write
      input_path output_path large_scale fine_scale boost detail_threshold
      spatial_sigma range_sigma world0
    = (Ok tt,
       World [] [(output_path,
                  edge_preserving_smooth bilateralFilter smoothed
                                         spatial_sigma range_sigma)]) /\
    ((forall d sigmaColor sigmaSpace,
        bilateralFilter nans d sigmaColor sigmaSpace = nans) ->
     smoothed = nans /\
     edge_preserving_smooth bilateralFilter smoothed spatial_sigma range_sigma
     = nans).
Proof.
  intros Hread Hne Hc Hwrite nans.
  assert (Hnorm : normalize_image (data img) = Ok nans)
    by (apply (normalize_image_constant c); assumption).
  assert (Hlen : nans <> []).
  { unfold nans. destruct (data img); [congruence | discriminate]. }
  split; [|split; [exact Hnorm|]].
  - intros q ->. rewrite (constant_replicate _ _ Hc).
    destruct (data img) as [|x l]; [congruence|]. cbn [length].
    rewrite np_min_constant, np_max_constant, fsub_self_fin. auto.
  - pose proof (blended_nan bilateralFilter filter_shape (length (data img))
                  large_scale fine_scale boost detail_threshold) as Hblend.
    fold nans in Hblend.
    assert (Hlarge : bilateralFilter nans large_scale (Q2Qc (1 # 10))
                       (Z2Qc large_scale) <> []).
    { intros H. apply (f_equal length) in H. rewrite filter_shape in H.
      destruct nans; [congruence | discriminate H]. }
    destruct (normalize_image_nonempty _ Hlarge) as [smoothed Hsm].
    exists smoothed.
    assert (Hred : reduce_banding bilateralFilter nans large_scale fine_scale
                     boost detail_threshold = Ok smoothed)
      by (rewrite reduce_banding_unfold, Hblend; exact Hsm).
    split; [exact Hred|]. split.
    + unfold Zsmooth.process_depth_image, Zsmooth.read_image, bind,
        except_ValueError, except_Exception, lift, save_exr.
      rewrite Hread. unfold astype_float32. simpl.
      rewrite Hnorm, Hred, Hwrite. reflexivity.
    + intros Hid. rewrite Hid in Hsm.
      assert (Hnn : normalize_image nans = Ok nans).
      { unfold nans at 1.
        rewrite (normalize_image_constant NaN) by
          (try exact Hlen; apply Forall_replicate; reflexivity).
        rewrite length_replicate. reflexivity. }
      rewrite Hnn in Hsm. injection Hsm as <-.
      split; [reflexivity|]. apply Hid.
Qed.

End ConstantInput.

(** The normaliser on a flat image, and on an image whose samples are all
    infinite. *)
Example normalize_image_constant_ex :
  normalize_image [Fin (qc 1 2); Fin (qc 1 2); Fin (qc 1 2)]
  = Ok [NaN; NaN; NaN] /\
  normalize_image [PInf; PInf] = Ok [NaN; NaN].
Proof. split; compute_done. Qed.

Lemma constant_image_nan_propagates_witness :
  let img := Decoded 2 uint8 (replicate 4 (Fin (qc 128 1))) in
  let imread := fun (_ : string) (_ : imread_flag) => Some img in
  let exr_write := fun (_ : string) (_ : ndarray) => Ok tt in
  (forall image d sigmaColor sigmaSpace,
     length (no_filter image d sigmaColor sigmaSpace) = length image) /\
  imread "input.png" IMREAD_ANYDEPTH = Some img /\
  data img <> [] /\
  constant (Fin (qc 128 1)) (data img) /\
  (forall image, exr_write "output.exr" image = Ok tt) /\
  normalize_image (data img) = Ok (replicate 4 NaN) /\
  Zsmooth.process_depth_image no_filter imread exr_write
    "input.png" "output.exr" 15 3 (qc 3 2) (qc 1 50) (qc 50 1) (qc 1 10)
    world0
  = (Ok tt, World [] [("output.exr", replicate 4 NaN)]).
Proof.
  intros img imread exr_write.
  assert (Hshape : forall image d sigmaColor sigmaSpace,
            length (no_filter image d sigmaColor sigmaSpace) = length image)
    by reflexivity.
  assert (Hread : imread "input.png" IMREAD_ANYDEPTH = Some img)
    by reflexivity.
  assert (Hne : data img <> []) by discriminate.
  assert (Hc : constant (Fin (qc 128 1)) (data img))
    by (repeat constructor).
  assert (Hwrite : forall image, exr_write "output.exr" image = Ok tt)
    by reflexivity.
  destruct (constant_image_nan_propagates no_filter imread exr_write Hshape
              "input.png" "output.exr" 15 3 (qc 3 2) (qc 1 50) (qc 50 1)
              (qc 1 10) img (Fin (qc 128 1)) Hread Hne Hc Hwrite)
    as (_ & Hnorm & smoothed & _ & Hrun & Hid).
  destruct (Hid (fun _ _ _ => eq_refl)) as [Hsm Hfinal].
  rewrite Hfinal in Hrun.
  repeat (split; [assumption|]). exact Hrun.
Defined.

(** ** The pipelines *)

Section Pipelines.

Variable bilateralFilter : ndarray -> Z -> Qc -> Qc -> ndarray.
Variable imread : string -> imread_flag -> option decoded.
Variable Image_open : string -> option decoded.
Variable cvtColor_BGR2GRAY : decoded -> result decoded.
Variable exr_channel_Y : string -> result ndarray.
Variable exr_write : string -> ndarray -> result unit.
Variable float_repr : Qc -> string.

Let read_image_dr :=
  ZsmoothDynamicRange.read_image imread Image_open cvtColor_BGR2GRAY
                                 exr_channel_Y.
Let process_dr :=
  ZsmoothDynamicRange.process_depth_image bilateralFilter imread Image_open
    cvtColor_BGR2GRAY exr_channel_Y exr_write.
Let main_dr :=
  ZsmoothDynamicRange.main bilateralFilter imread Image_open
    cvtColor_BGR2GRAY exr_channel_Y exr_write float_repr.

(** In [zsmooth.py] the range adjustment is the normaliser, and nothing
    else. *)
Lemma zsmooth_range_adjustment input_path output_path large_scale fine_scale
    boost detail_threshold spatial_sigma range_sigma :
  Zsmooth.process_depth_image bilateralFilter imread exr_write
    input_path output_path large_scale fine_scale boost detail_threshold
    spatial_sigma range_sigma
  = (depth_map <- load (Zsmooth.read_image imread) input_path ;;
     normalized <- lift (normalize_image depth_map) ;;
     later_stages bilateralFilter exr_write output_path large_scale fine_scale
       boost detail_threshold spatial_sigma range_sigma normalized).
Proof. reflexivity. Qed.


(** C2, at the input where [zsmooth_dynamic_range.py] departs from it: run
    without [--black_point] and [--white_point] on a readable image, the
    script does not fall back to the normaliser; [float(None)] raises a
    [TypeError] that nothing catches, right after decoding.  The run ends
    with status 1, nothing is written. *)
Theorem absent_bounds_type_error (a : ZsmoothDynamicRange.args)
    (depth_map : ndarray) :
  ZsmoothDynamicRange.black_point a = None ->
  ZsmoothDynamicRange.white_point a = None ->
  read_image_dr (ZsmoothDynamicRange.input_file a) = Ok depth_map ->
  main_dr a world0
  = (Raise (TypeError float_none_msg),
     World ["Processing depth image: " +:+ ZsmoothDynamicRange.input_file a;
            "Output will be saved as: " +:+ ZsmoothDynamicRange.output_file a]
           []) /\
  exit_status (main_dr a world0).1 = 1%Z /\
  written (main_dr a world0).2 = [].
Proof.
  intros Hb Hw Hread.
  assert (Hrun : main_dr a world0
    = (Raise (TypeError float_none_msg),
       World ["Processing depth image: " +:+ ZsmoothDynamicRange.input_file a;
              "Output will be saved as: " +:+ ZsmoothDynamicRange.output_file a]
             [])).
  { unfold main_dr, ZsmoothDynamicRange.main. rewrite Hb, Hw.
    unfold ZsmoothDynamicRange.process_depth_image.
    fold read_image_dr.
    unfold bind, print, ret, lift, except_ValueError. simpl.
    rewrite Hread. reflexivity. }
  rewrite Hrun. auto.
Qed.


End Pipelines.

Lemma absent_bounds_type_error_witness :
  let a := dr_args None None in
  let read :=
    ZsmoothDynamicRange.read_image (one_image gray8) no_image first_channel
                                   no_exr in
  let run :=
    ZsmoothDynamicRange.main mean3 (one_image gray8) no_image first_channel
                             no_exr write_ok repr_stub a world0 in
  ZsmoothDynamicRange.black_point a = None /\
  ZsmoothDynamicRange.white_point a = None /\
  read "input.png" = Ok [Fin 0; Fin (qc 1 5); Fin (qc 4 5); Fin 1] /\
  run = (Raise (TypeError float_none_msg),
         World ["Processing depth image: input.png";
                "Output will be saved as: output.exr"] []) /\
  exit_status run.1 = 1%Z /\ written run.2 = [].
Proof.
  intros a read run.
  assert (Hread : read "input.png"
                  = Ok [Fin 0; Fin (qc 1 5); Fin (qc 4 5); Fin 1])
    by compute_done.
  split; [reflexivity|]. split; [reflexivity|]. split; [exact Hread|].
  exact (absent_bounds_type_error mean3 (one_image gray8) no_image
           first_channel no_exr write_ok repr_stub a _ eq_refl eq_refl Hread).
Defined.


(** Runs of [zsmooth_dynamic_range.py] on the four-pixel image: bounds out
    of order are refused before anything is read; with bounds 0.2 and 0.8
    the pipeline runs (twice, as [main] calls it twice) and the run ends
    with status 0. *)
Example main_dynamic_range_ex :
  let run bp wp :=
    ZsmoothDynamicRange.main mean3 (one_image gray8) no_image first_channel
                             no_exr write_ok repr_stub (dr_args bp wp)
                             world0 in
  (exit_status (run (Some (qc 4 5)) (Some (qc 1 5))).1 = 1%Z /\
   written (run (Some (qc 4 5)) (Some (qc 1 5))).2 = []) /\
  (exit_status (run (Some (qc 1 5)) (Some (qc 4 5))).1 = 0%Z /\
   length (written (run (Some (qc 1 5)) (Some (qc 4 5))).2) = 2%nat).
Proof. intros run. repeat split; compute_done. Qed.

(** A run of [zsmooth.py] on the same image: normalised, debanded, smoothed
    and written once. *)
Example main_zsmooth_ex :
  let run :=
    Zsmooth.main mean3 (one_image gray8) write_ok
      (Zsmooth.Args "input.png" "output.exr" 15 3 (qc 3 2) (qc 1 50)
                    (qc 50 1) (qc 1 10)) world0 in
  exit_status run.1 = 0%Z /\ length (written run.2) = 1%nat.
Proof. intros run. split; compute_done. Qed.

(** ** Decoding *)

(** C6, as stated, fails on [zsmooth.py]: its [read_image] hands back the
    8-bit values as they are, 255 stays 255 and is not divided by 255. *)
Lemma zsmooth_read_image_unscaled :
  Zsmooth.read_image (one_image gray8) "input.png"
  = Ok [Fin (qc 0 1); Fin (qc 51 1); Fin (qc 204 1); Fin (qc 255 1)] /\
  ~ (forall imread file_path img,
       imread file_path IMREAD_ANYDEPTH = Some img ->
       dtype_of img = uint8 ->
       Zsmooth.read_image imread file_path
       = Ok (div_scalar (data img) (Z2Qc 255))).
Proof.
  split; [reflexivity|].
  intros H.
  specialize (H (one_image gray8) "input.png"%string gray8 eq_refl eq_refl).
  vm_compute in H. discriminate H.
Qed.

Section Decoding.

Variable imread : string -> imread_flag -> option decoded.
Variable Image_open : string -> option decoded.
Variable cvtColor_BGR2GRAY : decoded -> result decoded.
Variable exr_channel_Y : string -> result ndarray.

Let read_image_dr :=
  ZsmoothDynamicRange.read_image imread Image_open cvtColor_BGR2GRAY
                                 exr_channel_Y.

Lemma div_scalar_lookup (a : ndarray) (c : Qc) (i : nat) (q : Qc) :
  c <> 0 -> a !! i = Some (Fin q) ->
  div_scalar a c !! i = Some (Fin (q / c)).
Proof.
  intros Hc Hi. unfold div_scalar. rewrite list_lookup_fmap, Hi. simpl.
  rewrite decide_False by exact Hc. reflexivity.
Qed.

(** C6, amended.  [read_image] of [zsmooth_dynamic_range.py] returns, for a
    path in [.exr], channel Y of the file as it is; for another path it
    takes what cv2 decodes, or else what PIL decodes, converts an array of
    three axes to a single channel, and returns the values divided by 255
    for 8-bit data, by 65535 for 16-bit data, and as they are for any other
    element type; when neither cv2 nor PIL can read the file it raises a
    [ValueError] that names the path.  [read_image] of [zsmooth.py] returns
    cv2's any-depth decoding as it is, without scaling, and raises the same
    [ValueError] when cv2 cannot read the file. *)
Theorem read_image_decode (file_path : string) :
  (* zsmooth_dynamic_range.py *)
  (endswith (lower file_path) ".exr" = true ->
   read_image_dr file_path = exr_channel_Y file_path) /\
  (endswith (lower file_path) ".exr" = false ->
   (imread file_path IMREAD_UNCHANGED = None ->
    Image_open file_path = None ->
    read_image_dr file_path
    = Raise (ValueError ("Could not read image: " +:+ file_path))) /\
   (forall img gray,
      imread file_path IMREAD_UNCHANGED = Some img \/
      (imread file_path IMREAD_UNCHANGED = None /\
       Image_open file_path = Some img) ->
      (if decide (ndim img = 3%nat) then cvtColor_BGR2GRAY img else Ok img)
      = Ok gray ->
      read_image_dr file_path
      = Ok (match dtype_of gray with
            | uint8 => div_scalar (data gray) (Z2Qc 255)
            | uint16 => div_scalar (data gray) (Z2Qc 65535)
            | _ => data gray
            end) /\
      (forall i q, data gray !! i = Some (Fin q) ->
         forall out, read_image_dr file_path = Ok out ->
         out !! i = Some (Fin (match dtype_of gray with
                               | uint8 => q / Z2Qc 255
                               | uint16 => q / Z2Qc 65535
                               | _ => q
                               end))))) /\
  (* zsmooth.py *)
  (forall img, imread file_path IMREAD_ANYDEPTH = Some img ->
     Zsmooth.read_image imread file_path = Ok (data img)) /\
  (imread file_path IMREAD_ANYDEPTH = None ->
   Zsmooth.read_image imread file_path
   = Raise (ValueError ("Could not read image: " +:+ file_path))).
Proof.
  split; [|split; [|split]].
  - intros Hexr. unfold read_image_dr, ZsmoothDynamicRange.read_image.
    rewrite Hexr. reflexivity.
  - intros Hexr. split.
    + intros Hcv Hpil. unfold read_image_dr, ZsmoothDynamicRange.read_image.
      rewrite Hexr, Hcv, Hpil. reflexivity.
    + intros img gray Himg Hgray.
      assert (Hread : read_image_dr file_path
                = Ok (match dtype_of gray with
                      | uint8 => div_scalar (data gray) (Z2Qc 255)
                      | uint16 => div_scalar (data gray) (Z2Qc 65535)
                      | _ => data gray
                      end)).
      { unfold read_image_dr, ZsmoothDynamicRange.read_image. rewrite Hexr.
        destruct Himg as [Hcv|[Hcv Hpil]].
        - rewrite Hcv. simpl. rewrite Hgray. simpl.
          destruct (dtype_of gray); reflexivity.
        - rewrite Hcv, Hpil. simpl. rewrite Hgray. simpl.
          destruct (dtype_of gray); reflexivity. }
      split; [exact Hread|].
      intros i q Hi out Hout. rewrite Hread in Hout. injection Hout as <-.
      destruct (dtype_of gray);
        try exact Hi; apply div_scalar_lookup;
        first [exact Hi | intros H; discriminate H].
  - intros img Hcv. unfold Zsmooth.read_image. rewrite Hcv. reflexivity.
  - intros Hcv. unfold Zsmooth.read_image. rewrite Hcv. reflexivity.
Qed.

End Decoding.

Lemma read_image_decode_witness :
  let read :=
    ZsmoothDynamicRange.read_image (one_image gray8) no_image first_channel
                                   no_exr in
  endswith (lower "input.png") ".exr" = false /\
  one_image gray8 "input.png" IMREAD_UNCHANGED = Some gray8 /\
  (if decide (ndim gray8 = 3%nat) then first_channel gray8 else Ok gray8)
  = Ok gray8 /\
  read "input.png" = Ok (div_scalar (data gray8) (Z2Qc 255)) /\
  (forall i q, data gray8 !! i = Some (Fin q) ->
     forall out, read "input.png" = Ok out ->
     out !! i = Some (Fin (q / Z2Qc 255))) /\
  Zsmooth.read_image (one_image gray8) "input.png" = Ok (data gray8).
Proof.
  intros read.
  assert (Hext : endswith (lower "input.png") ".exr" = false) by reflexivity.
  assert (Hcv : one_image gray8 "input.png" IMREAD_UNCHANGED = Some gray8)
    by reflexivity.
  assert (Hgray : (if decide (ndim gray8 = 3%nat) then first_channel gray8
                   else Ok gray8) = Ok gray8) by reflexivity.
  pose proof (read_image_decode (one_image gray8) no_image first_channel
                no_exr "input.png") as (_ & Hdr & Hz & _).
  destruct (proj2 (Hdr Hext) gray8 gray8 (or_introl Hcv) Hgray)
    as [Hread Hpix].
  split; [exact Hext|]. split; [exact Hcv|]. split; [exact Hgray|].
  split; [exact Hread|]. split; [exact Hpix|].
  exact (Hz gray8 eq_refl).
Defined.

(** Decoding with [zsmooth_dynamic_range.py]: an 8-bit image, a 16-bit
    image, a three-channel 8-bit image, a float image, an unreadable file,
    and an EXR path, whose suffix is matched without regard to case. *)
Example read_image_ex :
  let read img :=
    ZsmoothDynamicRange.read_image (one_image img) no_image first_channel
                                   no_exr "input.png" in
  read gray8 = Ok [Fin 0; Fin (qc 1 5); Fin (qc 4 5); Fin 1] /\
  read (Decoded 2 uint16 [Fin (qc 0 1); Fin (qc 13107 1); Fin (qc 65535 1)])
  = Ok [Fin 0; Fin (qc 1 5); Fin 1] /\
  read (Decoded 3 uint8 [Fin (qc 255 1); Fin (qc 9 1); Fin (qc 9 1);
                         Fin (qc 51 1); Fin (qc 7 1); Fin (qc 7 1)])
  = Ok [Fin 1; Fin (qc 1 5)] /\
  read (Decoded 2 float32 [Fin (qc 5 2); NaN; PInf])
  = Ok [Fin (qc 5 2); NaN; PInf] /\
  ZsmoothDynamicRange.read_image (fun _ _ => None) no_image first_channel
                                 no_exr "input.png"
  = Raise (ValueError "Could not read image: input.png") /\
  ZsmoothDynamicRange.read_image (one_image gray8) no_image first_channel
                                 (fun _ => Ok [Fin (qc 3 1)]) "Depth.EXR"
  = Ok [Fin (qc 3 1)].
Proof. intros read. repeat split; compute_done. Qed.

(** * Further properties of the normaliser *)

Section NormalizerMore.

Lemma foldl_fmin_nan (xs : ndarray) : forall a,
  a = NaN \/ NaN ∈ xs -> foldl fmin a xs = NaN.
Proof.
  induction xs as [|x xs IH]; intros a [Ha|Hin].
  - exact Ha.
  - inversion Hin.
  - subst a. simpl. apply IH. left. reflexivity.
  - simpl. apply IH. apply elem_of_cons in Hin as [<-|Hin]; [left | right; exact Hin].
    unfold fmin. destruct a; reflexivity.
Qed.

Lemma np_min_nan (img : ndarray) : NaN ∈ img -> np_min img = Ok NaN.
Proof.
  intros Hin. destruct img as [|x xs]; [inversion Hin|].
  simpl. f_equal. apply foldl_fmin_nan.
  apply elem_of_cons in Hin as [<-|Hin]; auto.
Qed.

Lemma fremap_nan_lo (hi x : float) : fremap NaN hi x = NaN.
Proof. unfold fremap, fsub. destruct x; reflexivity. Qed.

(** X1.  One [nan] sample is enough for [normalize_image] to return an
    image of [nan] only: [np.min] hands the [nan] on and every pixel is
    computed from it. *)
Theorem normalize_image_nan_poison (img : ndarray) :
  NaN ∈ img -> normalize_image img = Ok (replicate (length img) NaN).
Proof.
  intros Hin.
  assert (Hmin : np_min img = Ok NaN) by (apply np_min_nan, Hin).
  assert (Hmax : exists hi, np_max img = Ok hi).
  { destruct img as [|x xs]; [inversion Hin|]. simpl. eauto. }
  destruct Hmax as [hi Hmax].
  rewrite (normalize_image_formula img NaN hi Hmin Hmax). f_equal.
  clear. induction img as [|y img IH]; [reflexivity|].
  rewrite fmap_cons, fremap_nan_lo, IH. reflexivity.
Qed.

Lemma normalize_image_nan_poison_witness :
  let img := [Fin (qc 1 5); NaN; Fin (qc 4 5)] in
  NaN ∈ img /\ normalize_image img = Ok [NaN; NaN; NaN].
Proof.
  intros img.
  assert (Hin : NaN ∈ img) by (right; left).
  split; [exact Hin|]. exact (normalize_image_nan_poison img Hin).
Defined.

(** X2.  [normalize_image] raises exactly on the empty array, where
    [np.min] raises its [ValueError]; on any other array, constant or with
    special values, it returns an array of the same length. *)
Theorem normalize_image_raises_iff_empty (img : ndarray) :
  (normalize_image img = Raise (ValueError (zero_size_msg "minimum"))
   <-> img = []) /\
  ((exists e, normalize_image img = Raise e) <-> img = []) /\
  (forall out, normalize_image img = Ok out -> length out = length img).
Proof.
  destruct img as [|x xs].
  - split; [|split].
    + split; reflexivity.
    + split; [reflexivity | intros _; eexists; reflexivity].
    + intros out H. discriminate H.
  - assert (H : normalize_image (x :: xs)
              = Ok (fremap (foldl fmin x xs) (foldl fmax x xs) <$> x :: xs))
      by (apply normalize_image_formula; reflexivity).
    split; [|split].
    + split; intros H'; [rewrite H in H'|]; discriminate H'.
    + split; [intros [e He]; rewrite H in He | intros H']; discriminate.
    + intros out Hout. rewrite H in Hout.
      assert (Hout' : out = fremap (foldl fmin x xs) (foldl fmax x xs)
                              <$> x :: xs) by congruence.
      rewrite Hout'. apply length_fmap.
Qed.




End NormalizerMore.

Section AffineInvariance.

Variables a b : Qc.
Hypothesis a_pos : 0 < a.

(** A pointwise map that acts on numbers as [q * a + b]. *)
Variable g : float -> float.
Hypothesis g_fin : forall q, g (Fin q) = Fin (q * a + b).

Lemma affine_le (p q : Qc) : p <= q -> p * a + b <= q * a + b.
Proof.
  intros H. apply Qcplus_le_mono_r.
  apply Qcmult_le_compat_r; [exact H | apply Qclt_le_weak, a_pos].
Qed.

Lemma real_image_affine (img : ndarray) :
  real_image img -> real_image (g <$> img).
Proof.
  intros Hreal. apply Forall_fmap. eapply Forall_impl; [exact Hreal|].
  intros x Hx. destruct (is_finite_inv x Hx) as [q ->].
  simpl. rewrite g_fin. exact I.
Qed.

Lemma elem_of_affine (img : ndarray) (q' : Qc) :
  real_image img -> Fin q' ∈ g <$> img ->
  exists q, Fin q ∈ img /\ q' = q * a + b.
Proof.
  intros Hreal Hin. apply list_elem_of_fmap in Hin as (x & Hx & Hxin).
  pose proof (proj1 (Forall_forall _ _) Hreal x Hxin) as Hfx.
  destruct (is_finite_inv x Hfx) as [q ->].
  rewrite g_fin in Hx. injection Hx as ->. eauto.
Qed.

Lemma normalize_image_affine_gen (img : ndarray) :
  real_image img -> non_constant img ->
  normalize_image (g <$> img) = normalize_image img.
Proof.
  intros Hreal Hnc.
  assert (Hne : img <> []).
  { destruct Hnc as (x & _ & Hx & _). intros ->. inversion Hx. }
  destruct (np_min_real img Hreal Hne) as (lo & Hlo & Hloin & Hlole).
  destruct (np_max_real img Hreal Hne) as (hi & Hhi & Hhiin & Hhile).
  assert (Hlt : lo < hi) by (eapply non_constant_min_lt_max; eauto).
  pose proof (real_image_affine img Hreal) as Hreal'.
  assert (Hlo' : np_min (g <$> img) = Ok (Fin (lo * a + b))).
  { apply np_min_unique; [exact Hreal'| |].
    - rewrite <- g_fin. apply list_elem_of_fmap_2, Hloin.
    - intros q' Hq'. destruct (elem_of_affine img q' Hreal Hq') as (q & Hq & ->).
      apply affine_le, Hlole, Hq. }
  assert (Hhi' : np_max (g <$> img) = Ok (Fin (hi * a + b))).
  { apply np_max_unique; [exact Hreal'| |].
    - rewrite <- g_fin. apply list_elem_of_fmap_2, Hhiin.
    - intros q' Hq'. destruct (elem_of_affine img q' Hreal Hq') as (q & Hq & ->).
      apply affine_le, Hhile, Hq. }
  rewrite (normalize_image_formula _ _ _ Hlo' Hhi').
  rewrite (normalize_image_formula _ _ _ Hlo Hhi). f_equal.
  rewrite <- list_fmap_compose.
  apply Forall_fmap_ext_1. eapply Forall_impl; [exact Hreal|].
  intros x Hx. destruct (is_finite_inv x Hx) as [q ->].
  assert (Hd : hi - lo <> 0).
  { intros H. apply (Qclt_neq _ _ Hlt). symmetry. apply Qc_sub_eq_0, H. }
  assert (Ha : a <> 0) by (intros ->; exact (irreflexivity Qclt _ a_pos)).
  assert (Hne' : lo * a + b <> hi * a + b).
  { intros H. apply Hd.
    assert (H0 : (hi - lo) * a = 0).
    { replace ((hi - lo) * a) with ((hi * a + b) - (lo * a + b)) by ring.
      rewrite H. ring. }
    apply Qcmult_integral in H0 as [H0|H0]; [exact H0 | contradiction]. }
  simpl. rewrite g_fin, !fremap_fin by (exact Hne' || apply Qclt_neq, Hlt).
  f_equal. unfold remap. field. split; [exact Hd|].
  intros H. apply Hne'. symmetry. apply Qc_sub_eq_0, H.
Qed.

End AffineInvariance.

Section ScaleInvariance.

Variable c : Qc.
Hypothesis c_pos : 0 < c.

Lemma fdiv_fin_pos (q : Qc) : fdiv (Fin q) (Fin c) = Fin (q * / c + 0).
Proof.
  simpl. rewrite decide_False by (apply not_eq_sym, Qclt_neq, c_pos).
  f_equal. unfold Qcdiv. ring.
Qed.

(** X4.  [normalize_image] does not see the unit of the samples: on a
    non-constant image of real samples, dividing all samples by a positive
    number, or multiplying them by it and adding an offset, leaves the
    result unchanged. *)
Theorem normalize_image_scale_invariant (img : ndarray) (d : Qc) :
  real_image img -> non_constant img ->
  normalize_image (div_scalar img c) = normalize_image img /\
  normalize_image ((fun x => fadd (fmul x (Fin c)) (Fin d)) <$> img)
  = normalize_image img.
Proof.
  intros Hreal Hnc. split.
  - apply (normalize_image_affine_gen (/ c) 0);
      [apply Qcinv_pos, c_pos | apply fdiv_fin_pos | exact Hreal | exact Hnc].
  - apply (normalize_image_affine_gen c d);
      [exact c_pos | reflexivity | exact Hreal | exact Hnc].
Qed.

Variable bilateralFilter : ndarray -> Z -> Qc -> Qc -> ndarray.
Variable exr_write : string -> ndarray -> result unit.


End ScaleInvariance.

Lemma normalize_image_scale_invariant_witness :
  let img := data gray8 in
  0 < qc 255 1 /\ real_image img /\ non_constant img /\
  normalize_image (div_scalar img (qc 255 1)) = normalize_image img /\
  normalize_image ((fun x => fadd (fmul x (Fin (qc 255 1))) (Fin (qc 7 1)))
                     <$> img)
  = normalize_image img.
Proof.
  intros img.
  assert (Hpos : 0 < qc 255 1) by reflexivity.
  assert (Hreal : real_image img) by (repeat constructor).
  assert (Hnc : non_constant img).
  { exists (Fin (qc 0 1)), (Fin (qc 51 1)).
    split; [left|]. split; [right; left|]. vm_compute. discriminate. }
  split; [exact Hpos|]. split; [exact Hreal|]. split; [exact Hnc|].
  exact (normalize_image_scale_invariant (qc 255 1) Hpos img (qc 7 1) Hreal Hnc).
Defined.


(** * Further properties of the banding reduction *)

Section BlendMore.

Variable bilateralFilter : ndarray -> Z -> Qc -> Qc -> ndarray.

Lemma blended_lookup image large_scale fine_scale boost detail_threshold
    (i : nat) (x f l : float) :
  image !! i = Some x ->
  bilateralFilter image fine_scale (Q2Qc (1 # 10)) (Z2Qc fine_scale) !! i
  = Some f ->
  bilateralFilter image large_scale (Q2Qc (1 # 10)) (Z2Qc large_scale) !! i
  = Some l ->
  blended bilateralFilter image large_scale fine_scale boost detail_threshold
    !! i
  = Some (if fgtb (fabs (fsub x f)) (Fin detail_threshold)
          then fadd f (fmul (fsub x f) (Fin boost)) else l).
Proof.
  intros Hx Hf Hl. unfold blended. apply np_where_lookup.
  - rewrite list_lookup_fmap, lookup_zip_with, Hx. simpl. rewrite Hf.
    reflexivity.
  - rewrite lookup_zip_with, Hf. simpl.
    rewrite list_lookup_fmap, lookup_zip_with, Hx. simpl. rewrite Hf.
    reflexivity.
  - exact Hl.
Qed.



(** X8.  A pixel that is [nan] in the input, or in the fine layer, never
    passes the threshold test: the blend takes the large-scale layer
    there. *)
Theorem blended_nan_pixel image large_scale fine_scale boost detail_threshold
    (i : nat) (x f l : float) :
  image !! i = Some x ->
  bilateralFilter image fine_scale (Q2Qc (1 # 10)) (Z2Qc fine_scale) !! i
  = Some f ->
  bilateralFilter image large_scale (Q2Qc (1 # 10)) (Z2Qc large_scale) !! i
  = Some l ->
  x = NaN \/ f = NaN ->
  blended bilateralFilter image large_scale fine_scale boost detail_threshold
    !! i = Some l.
Proof.
  intros Hx Hf Hl Hnan.
  rewrite (blended_lookup _ _ _ _ _ _ _ _ _ Hx Hf Hl).
  assert (Hd : fsub x f = NaN).
  { destruct Hnan as [-> | ->]; [reflexivity|]. destruct x; reflexivity. }
  rewrite Hd. reflexivity.
Qed.

(** cv2 returns an array of the size of its source. *)
Hypothesis filter_shape : forall image d sigmaColor sigmaSpace,
  length (bilateralFilter image d sigmaColor sigmaSpace) = length image.

Lemma blended_length image large_scale fine_scale boost detail_threshold :
  length (blended bilateralFilter image large_scale fine_scale boost
                  detail_threshold) = length image.
Proof.
  unfold blended.
  rewrite np_where_length;
    repeat (rewrite length_fmap || rewrite length_zip_with
            || rewrite filter_shape); lia.
Qed.


End BlendMore.



Lemma blended_nan_pixel_witness :
  let image := [Fin (qc 1 10); NaN; Fin (qc 9 10)] in
  image !! 1%nat = Some NaN /\
  mean3 image 3 (Q2Qc (1 # 10)) (Z2Qc 3) !! 1%nat = Some NaN /\
  mean3 image 15 (Q2Qc (1 # 10)) (Z2Qc 15) !! 1%nat = Some NaN /\
  blended mean3 image 15 3 (qc 3 2) (qc 1 50) !! 1%nat = Some NaN.
Proof.
  intros image.
  assert (Hx : image !! 1%nat = Some NaN) by reflexivity.
  assert (Hf : mean3 image 3 (Q2Qc (1 # 10)) (Z2Qc 3) !! 1%nat = Some NaN)
    by reflexivity.
  assert (Hl : mean3 image 15 (Q2Qc (1 # 10)) (Z2Qc 15) !! 1%nat = Some NaN)
    by reflexivity.
  split; [exact Hx|]. split; [exact Hf|]. split; [exact Hl|].
  exact (blended_nan_pixel mean3 image 15 3 (qc 3 2) (qc 1 50) 1 _ _ _
           Hx Hf Hl (or_introl eq_refl)).
Defined.


(** * Further properties of the dynamic range extension *)

Section ExtendMore.

Variables black white : Qc.
Hypothesis bounds_in_order : black < white.




End ExtendMore.

Section UnitBounds.





End UnitBounds.



(** * Further properties of the decoders *)

Section Paths.

Lemma lower_app (s t : string) : lower (s +:+ t) = lower s +:+ lower t.
Proof. induction s as [|ch s IH]; simpl; [reflexivity | rewrite IH; reflexivity]. Qed.

Lemma length_app_string (s t : string) :
  String.length (s +:+ t) = (String.length s + String.length t)%nat.
Proof. induction s as [|ch s IH]; simpl; [reflexivity | rewrite IH; reflexivity]. Qed.

Lemma length_lower (s : string) : String.length (lower s) = String.length s.
Proof. induction s as [|ch s IH]; simpl; [reflexivity | rewrite IH; reflexivity]. Qed.

Lemma substring_all (t : string) : substring 0 (String.length t) t = t.
Proof. induction t as [|ch t IH]; simpl; [reflexivity | rewrite IH; reflexivity]. Qed.

Lemma substring_suffix (s t : string) :
  substring (String.length s) (String.length t) (s +:+ t) = t.
Proof. induction s as [|ch s IH]; simpl; [apply substring_all | exact IH]. Qed.

Lemma endswith_app (s t : string) : endswith (s +:+ t) t = true.
Proof.
  unfold endswith. rewrite length_app_string.
  replace (String.length s + String.length t - String.length t)%nat
    with (String.length s) by lia.
  rewrite substring_suffix, String.eqb_refl.
  rewrite andb_true_r. apply Nat.leb_le. lia.
Qed.

End Paths.

Section DecodeMore.

Variable imread : string -> imread_flag -> option decoded.
Variable Image_open : string -> option decoded.
Variable cvtColor_BGR2GRAY : decoded -> result decoded.
Variable exr_channel_Y : string -> result ndarray.

Let read_image_dr :=
  ZsmoothDynamicRange.read_image imread Image_open cvtColor_BGR2GRAY
                                 exr_channel_Y.

(** X12.  In [zsmooth_dynamic_range.py] a path whose last four characters
    are [.exr] in any letter case goes to OpenEXR and nowhere else:
    [read_image] returns what reading channel Y returns, an error of
    OpenEXR included, whatever cv2 and PIL would make of the file. *)
Theorem read_image_exr_any_case (base ext : string) :
  lower ext = ".exr"%string ->
  read_image_dr (base +:+ ext) = exr_channel_Y (base +:+ ext).
Proof.
  intros Hext. unfold read_image_dr, ZsmoothDynamicRange.read_image.
  rewrite lower_app, Hext, endswith_app. reflexivity.
Qed.

Lemma div_scalar_within (a : ndarray) (c : Qc) :
  0 < c -> Forall (within 0 c) a -> Forall (within 0 1) (div_scalar a c).
Proof.
  intros Hc Ha. unfold div_scalar. apply Forall_fmap.
  eapply Forall_impl; [exact Ha|].
  intros x Hx. destruct x as [q| | |]; try contradiction.
  destruct Hx as [Hlo Hhi]. simpl.
  rewrite decide_False by (apply not_eq_sym, Qclt_neq, Hc).
  simpl. split; [apply Qc_div_nonneg | apply Qc_div_le_1]; assumption.
Qed.

(** X13.  What [zsmooth_dynamic_range.py] decodes from 8-bit and 16-bit
    files lies in [[0, 1]]: for a single-channel array that cv2 read from a
    path not in [.exr], with values in the range of its element type, every
    sample returned is a number between 0 and 1. *)
Theorem read_image_unit_range (file_path : string) (img : decoded) :
  endswith (lower file_path) ".exr" = false ->
  imread file_path IMREAD_UNCHANGED = Some img ->
  ndim img <> 3%nat ->
  (dtype_of img = uint8 /\ Forall (within 0 (Z2Qc 255)) (data img)) \/
  (dtype_of img = uint16 /\ Forall (within 0 (Z2Qc 65535)) (data img)) ->
  exists out,
    read_image_dr file_path = Ok out /\ length out = length (data img) /\
    Forall (within 0 1) out.
Proof.
  intros Hext Hcv Hdim Hrange.
  unfold read_image_dr, ZsmoothDynamicRange.read_image.
  rewrite Hext, Hcv. simpl. rewrite decide_False by exact Hdim. simpl.
  destruct Hrange as [[-> Hin]|[-> Hin]]; eexists;
    (split; [reflexivity|]);
    (split; [unfold div_scalar, astype_float32; apply length_fmap|]);
    apply div_scalar_within; try exact Hin; reflexivity.
Qed.

End DecodeMore.

Lemma read_image_exr_any_case_witness :
  lower ".ExR" = ".exr"%string /\
  ZsmoothDynamicRange.read_image (one_image gray8) no_image first_channel
                                 no_exr ("shots/depth" +:+ ".ExR")
  = no_exr ("shots/depth" +:+ ".ExR").
Proof.
  assert (Hext : lower ".ExR" = ".exr"%string) by reflexivity.
  split; [exact Hext|].
  exact (read_image_exr_any_case (one_image gray8) no_image first_channel
           no_exr "shots/depth" ".ExR" Hext).
Defined.

Lemma read_image_unit_range_witness :
  endswith (lower "input.png") ".exr" = false /\
  one_image gray8 "input.png" IMREAD_UNCHANGED = Some gray8 /\
  ndim gray8 <> 3%nat /\
  (dtype_of gray8 = uint8 /\ Forall (within 0 (Z2Qc 255)) (data gray8)) /\
  exists out,
    ZsmoothDynamicRange.read_image (one_image gray8) no_image first_channel
                                   no_exr "input.png" = Ok out /\
    length out = length (data gray8) /\ Forall (within 0 1) out.
Proof.
  assert (Hext : endswith (lower "input.png") ".exr" = false) by reflexivity.
  assert (Hdim : ndim gray8 <> 3%nat) by discriminate.
  assert (Hin : Forall (within 0 (Z2Qc 255)) (data gray8)).
  { repeat constructor; vm_compute; discriminate. }
  split; [exact Hext|]. split; [reflexivity|]. split; [exact Hdim|].
  split; [split; [reflexivity | exact Hin]|].
  exact (read_image_unit_range (one_image gray8) no_image first_channel no_exr
           "input.png" gray8 Hext eq_refl Hdim
           (or_introl (conj eq_refl Hin))).
Defined.

(** * Runs of the scripts *)

Section Runs.

Variable bilateralFilter : ndarray -> Z -> Qc -> Qc -> ndarray.
Variable imread : string -> imread_flag -> option decoded.
Variable Image_open : string -> option decoded.
Variable cvtColor_BGR2GRAY : decoded -> result decoded.
Variable exr_channel_Y : string -> result ndarray.
Variable exr_write : string -> ndarray -> result unit.
Variable float_repr : Qc -> string.

(** cv2 returns an array of the size of its source. *)
Hypothesis filter_shape : forall image d sigmaColor sigmaSpace,
  length (bilateralFilter image d sigmaColor sigmaSpace) = length image.

Let read_image_dr :=
  ZsmoothDynamicRange.read_image imread Image_open cvtColor_BGR2GRAY
                                 exr_channel_Y.
Let process_dr :=
  ZsmoothDynamicRange.process_depth_image bilateralFilter imread Image_open
    cvtColor_BGR2GRAY exr_channel_Y exr_write.
Let main_dr :=
  ZsmoothDynamicRange.main bilateralFilter imread Image_open
    cvtColor_BGR2GRAY exr_channel_Y exr_write float_repr.
Let process_z := Zsmooth.process_depth_image bilateralFilter imread exr_write.
Let main_z := Zsmooth.main bilateralFilter imread exr_write.

Lemma normalize_image_ok_length (img : ndarray) :
  img <> [] ->
  exists out, normalize_image img = Ok out /\ length out = length img.
Proof.
  intros Hne. destruct img as [|x xs]; [congruence|].
  eexists. split; [apply normalize_image_formula; reflexivity|].
  apply length_fmap.
Qed.

Lemma reduce_banding_ok_length image large_scale fine_scale boost
    detail_threshold :
  image <> [] ->
  exists out,
    reduce_banding bilateralFilter image large_scale fine_scale boost
                   detail_threshold = Ok out /\
    length out = length image.
Proof.
  intros Hne. rewrite reduce_banding_unfold.
  pose proof (blended_length bilateralFilter filter_shape image large_scale
                fine_scale boost detail_threshold) as Hlen.
  assert (Hb : blended bilateralFilter image large_scale fine_scale boost
                 detail_threshold <> []).
  { intros H. rewrite H in Hlen. destruct image; [congruence | discriminate]. }
  destruct (normalize_image_ok_length _ Hb) as (out & Hout & Hlen').
  exists out. split; [exact Hout | congruence].
Qed.

Lemma nonempty_length (a b : ndarray) : length a = length b -> b <> [] -> a <> [].
Proof. intros H Hb ->. destruct b; [congruence | discriminate H]. Qed.

(** What the stages after the range adjustment do with a non-empty image
    when the file can be written. *)
Lemma later_stages_ok output_path large_scale fine_scale boost detail_threshold
    spatial_sigma range_sigma (adjusted : ndarray) :
  adjusted <> [] ->
  (forall image, exr_write output_path image = Ok tt) ->
  exists final,
    length final = length adjusted /\
    forall w,
      later_stages bilateralFilter exr_write output_path large_scale
        fine_scale boost detail_threshold spatial_sigma range_sigma adjusted w
      = (Ok tt, World (stdout w) (written w ++ [(output_path, final)])).
Proof.
  intros Hne Hwrite.
  destruct (reduce_banding_ok_length adjusted large_scale fine_scale boost
              detail_threshold Hne) as (smoothed & Hsm & Hlen).
  exists (edge_preserving_smooth bilateralFilter smoothed spatial_sigma
            range_sigma).
  split; [unfold edge_preserving_smooth; rewrite filter_shape; exact Hlen|].
  intros w. unfold later_stages, bind, lift, except_Exception, save_exr.
  rewrite Hsm, Hwrite. reflexivity.
Qed.

(** What they do when the file cannot be written. *)
Lemma later_stages_write_error output_path large_scale fine_scale boost
    detail_threshold spatial_sigma range_sigma (adjusted : ndarray) (e : exn)
    (w : world) :
  adjusted <> [] ->
  (forall image, exr_write output_path image = Raise e) ->
  is_Exception e ->
  later_stages bilateralFilter exr_write output_path large_scale fine_scale
    boost detail_threshold spatial_sigma range_sigma adjusted w
  = (Raise (SystemExit 1),
     World (stdout w ++ ["Error saving EXR file: " +:+ exn_str e])
           (written w)).
Proof.
  intros Hne Hwrite He.
  destruct (reduce_banding_ok_length adjusted large_scale fine_scale boost
              detail_threshold Hne) as (smoothed & Hsm & _).
  unfold later_stages, bind, lift, except_Exception, save_exr, print, sys_exit.
  rewrite Hsm, Hwrite. destruct e; try reflexivity. contradiction.
Qed.

(** X14.  [zsmooth.py] on a file that cv2 cannot read: the run prints its
    two opening lines and [Error: Could not read image: <path>], ends with
    status 1 and writes nothing. *)
Theorem zsmooth_unreadable_input (a : Zsmooth.args) :
  imread (Zsmooth.input_file a) IMREAD_ANYDEPTH = None ->
  main_z a world0
  = (Raise (SystemExit 1),
     World ["Processing depth image: " +:+ Zsmooth.input_file a;
            "Output will be saved as: " +:+ Zsmooth.output_file a;
            "Error: Could not read image: " +:+ Zsmooth.input_file a] []) /\
  exit_status (main_z a world0).1 = 1%Z.
Proof.
  intros Hread.
  assert (Hrun : main_z a world0
    = (Raise (SystemExit 1),
       World ["Processing depth image: " +:+ Zsmooth.input_file a;
              "Output will be saved as: " +:+ Zsmooth.output_file a;
              "Error: Could not read image: " +:+ Zsmooth.input_file a] [])).
  { unfold main_z, Zsmooth.main, Zsmooth.process_depth_image,
      Zsmooth.read_image, bind, print, lift, except_ValueError, sys_exit.
    simpl. rewrite Hread. reflexivity. }
  rewrite Hrun. auto.
Qed.

(** X15.  In [zsmooth_dynamic_range.py] a [ValueError] raised while
    decoding is reported before the bounds are looked at: whatever the
    bounds, absent ones included, [process_depth_image] prints
    [Error: <message>], ends the run with status 1 and writes nothing; for a
    path not in [.exr] that neither cv2 nor PIL can read the message names
    the path. *)
Theorem dynamic_range_decode_error input_path output_path large_scale
    fine_scale boost detail_threshold spatial_sigma range_sigma
    black_point white_point (w : world) :
  (forall msg, read_image_dr input_path = Raise (ValueError msg) ->
     process_dr input_path output_path large_scale fine_scale boost
       detail_threshold spatial_sigma range_sigma black_point white_point w
     = (Raise (SystemExit 1),
        World (stdout w ++ ["Error: " +:+ msg]) (written w))) /\
  (endswith (lower input_path) ".exr" = false ->
   imread input_path IMREAD_UNCHANGED = None ->
   Image_open input_path = None ->
   process_dr input_path output_path large_scale fine_scale boost
     detail_threshold spatial_sigma range_sigma black_point white_point w
   = (Raise (SystemExit 1),
      World (stdout w ++ ["Error: Could not read image: " +:+ input_path])
            (written w))).
Proof.
  assert (Hgen : forall msg, read_image_dr input_path = Raise (ValueError msg) ->
     process_dr input_path output_path large_scale fine_scale boost
       detail_threshold spatial_sigma range_sigma black_point white_point w
     = (Raise (SystemExit 1),
        World (stdout w ++ ["Error: " +:+ msg]) (written w))).
  { intros msg Hread.
    unfold process_dr, ZsmoothDynamicRange.process_depth_image.
    fold read_image_dr.
    unfold bind, print, lift, except_ValueError, sys_exit.
    rewrite Hread. reflexivity. }
  split; [exact Hgen|].
  intros Hext Hcv Hpil. apply Hgen.
  unfold read_image_dr, ZsmoothDynamicRange.read_image.
  rewrite Hext, Hcv, Hpil. reflexivity.
Qed.

(** X16.  Only a [ValueError] is turned into a clean exit.  When decoding
    raises anything else, as OpenEXR does on a file it cannot open,
    [process_depth_image] of [zsmooth_dynamic_range.py] lets it through:
    no [Error:] line is printed and nothing is written. *)
Theorem dynamic_range_decode_uncaught input_path output_path large_scale
    fine_scale boost detail_threshold spatial_sigma range_sigma
    black_point white_point (w : world) (e : exn) :
  read_image_dr input_path = Raise e -> not_ValueError e ->
  process_dr input_path output_path large_scale fine_scale boost
    detail_threshold spatial_sigma range_sigma black_point white_point w
  = (Raise e, w).
Proof.
  intros Hread He.
  unfold process_dr, ZsmoothDynamicRange.process_depth_image.
  fold read_image_dr.
  unfold bind, lift, except_ValueError. rewrite Hread.
  destruct e; try reflexivity. contradiction.
Qed.

(** X17.  [zsmooth.py] on an output path that OpenEXR cannot write: the
    image is decoded and processed, the error of the writer is caught, the
    run prints [Error saving EXR file: <message>], ends with status 1 and
    leaves no file. *)
Theorem zsmooth_write_error (a : Zsmooth.args) (img : decoded) (e : exn) :
  imread (Zsmooth.input_file a) IMREAD_ANYDEPTH = Some img ->
  data img <> [] ->
  (forall image, exr_write (Zsmooth.output_file a) image = Raise e) ->
  is_Exception e ->
  main_z a world0
  = (Raise (SystemExit 1),
     World ["Processing depth image: " +:+ Zsmooth.input_file a;
            "Output will be saved as: " +:+ Zsmooth.output_file a;
            "Error saving EXR file: " +:+ exn_str e] []).
Proof.
  intros Hread Hne Hwrite He.
  destruct (normalize_image_ok_length (data img) Hne) as (norm & Hnorm & Hlen).
  pose proof (nonempty_length _ _ Hlen Hne) as Hne'.
  unfold main_z, Zsmooth.main.
  rewrite zsmooth_range_adjustment.
  unfold load, Zsmooth.read_image, astype_float32.
  unfold bind, print, lift, except_ValueError.
  cbn -[later_stages String.append].
  rewrite Hread, Hnorm.
  rewrite (later_stages_write_error _ _ _ _ _ _ _ norm e _ Hne' Hwrite He).
  reflexivity.
Qed.

(** X18.  A complete run of [zsmooth.py]: on a readable, non-empty image
    and a writable output path the run prints three lines, ends with status
    0 and writes exactly one file, at the output path, with as many samples
    as the input image. *)
Theorem zsmooth_complete_run (a : Zsmooth.args) (img : decoded) :
  imread (Zsmooth.input_file a) IMREAD_ANYDEPTH = Some img ->
  data img <> [] ->
  (forall image, exr_write (Zsmooth.output_file a) image = Ok tt) ->
  exists final,
    length final = length (data img) /\
    main_z a world0
    = (Ok tt,
       World ["Processing depth image: " +:+ Zsmooth.input_file a;
              "Output will be saved as: " +:+ Zsmooth.output_file a;
              "Processed depth image saved as " +:+ Zsmooth.output_file a]
             [(Zsmooth.output_file a, final)]).
Proof.
  intros Hread Hne Hwrite.
  destruct (normalize_image_ok_length (data img) Hne) as (norm & Hnorm & Hlen).
  pose proof (nonempty_length _ _ Hlen Hne) as Hne'.
  destruct (later_stages_ok (Zsmooth.output_file a) (Zsmooth.large_scale a)
              (Zsmooth.fine_scale a) (Zsmooth.boost a)
              (Zsmooth.detail_threshold a) (Zsmooth.spatial_sigma a)
              (Zsmooth.range_sigma a) norm Hne' Hwrite)
    as (final & Hflen & Hlater).
  exists final. split; [congruence|].
  unfold main_z, Zsmooth.main.
  rewrite zsmooth_range_adjustment.
  unfold load, Zsmooth.read_image, astype_float32.
  unfold bind, print, lift, except_ValueError.
  cbn -[later_stages String.append].
  rewrite Hread, Hnorm, Hlater. reflexivity.
Qed.


End Runs.

Lemma zsmooth_unreadable_input_witness :
  let imread := fun (_ : string) (_ : imread_flag) => @None decoded in
  let run := Zsmooth.main mean3 imread write_ok (z_args "missing.png") world0 in
  imread "missing.png" IMREAD_ANYDEPTH = None /\
  run = (Raise (SystemExit 1),
         World ["Processing depth image: missing.png";
                "Output will be saved as: output.exr";
                "Error: Could not read image: missing.png"] []) /\
  exit_status run.1 = 1%Z.
Proof.
  intros imread run.
  split; [reflexivity|].
  exact (zsmooth_unreadable_input mean3 imread write_ok (z_args "missing.png")
           eq_refl).
Defined.

Lemma dynamic_range_decode_error_witness :
  let imread := fun (_ : string) (_ : imread_flag) => @None decoded in
  endswith (lower "missing.png") ".exr" = false /\
  imread "missing.png" IMREAD_UNCHANGED = None /\
  no_image "missing.png" = None /\
  ZsmoothDynamicRange.process_depth_image mean3 imread no_image first_channel
    no_exr write_ok "missing.png" "output.exr" 15 3 (qc 3 2) (qc 1 50)
    (qc 50 1) (qc 1 10) None None world0
  = (Raise (SystemExit 1),
     World ["Error: Could not read image: missing.png"] []).
Proof.
  intros imread.
  split; [reflexivity|]. split; [reflexivity|]. split; [reflexivity|].
  exact (proj2 (dynamic_range_decode_error mean3 imread no_image first_channel
                  no_exr write_ok "missing.png" "output.exr" 15 3 (qc 3 2)
                  (qc 1 50) (qc 50 1) (qc 1 10) None None world0)
           eq_refl eq_refl eq_refl).
Defined.

Lemma dynamic_range_decode_uncaught_witness :
  let e := LibraryError "Cannot open image file depth.exr" in
  ZsmoothDynamicRange.read_image (one_image gray8) no_image first_channel
                                 no_exr "depth.exr" = Raise e /\
  not_ValueError e /\
  ZsmoothDynamicRange.process_depth_image mean3 (one_image gray8) no_image
    first_channel no_exr write_ok "depth.exr" "output.exr" 15 3 (qc 3 2)
    (qc 1 50) (qc 50 1) (qc 1 10) (Some (qc 1 5)) (Some (qc 4 5)) world0
  = (Raise e, world0).
Proof.
  intros e.
  split; [reflexivity|]. split; [exact I|].
  exact (dynamic_range_decode_uncaught mean3 (one_image gray8) no_image
           first_channel no_exr write_ok "depth.exr" "output.exr" 15 3
           (qc 3 2) (qc 1 50) (qc 50 1) (qc 1 10) (Some (qc 1 5))
           (Some (qc 4 5)) world0 e eq_refl I).
Defined.

Lemma zsmooth_write_error_witness :
  let a := z_args "input.png" in
  let e := LibraryError "Cannot open image file output.exr" in
  (forall image d sigmaColor sigmaSpace,
     length (mean3 image d sigmaColor sigmaSpace) = length image) /\
  one_image gray8 (Zsmooth.input_file a) IMREAD_ANYDEPTH = Some gray8 /\
  data gray8 <> [] /\
  (forall image, write_denied (Zsmooth.output_file a) image = Raise e) /\
  is_Exception e /\
  Zsmooth.main mean3 (one_image gray8) write_denied a world0
  = (Raise (SystemExit 1),
     World ["Processing depth image: " +:+ Zsmooth.input_file a;
            "Output will be saved as: " +:+ Zsmooth.output_file a;
            "Error saving EXR file: " +:+ exn_str e] []).
Proof.
  intros a e.
  assert (Hne : data gray8 <> []) by discriminate.
  assert (Hwrite : forall image,
            write_denied (Zsmooth.output_file a) image = Raise e)
    by reflexivity.
  split; [exact mean3_length|]. split; [reflexivity|]. split; [exact Hne|].
  split; [exact Hwrite|]. split; [exact I|].
  exact (zsmooth_write_error mean3 (one_image gray8) write_denied mean3_length
           a gray8 e eq_refl Hne Hwrite I).
Defined.

Lemma zsmooth_complete_run_witness :
  let a := z_args "input.png" in
  (forall image d sigmaColor sigmaSpace,
     length (mean3 image d sigmaColor sigmaSpace) = length image) /\
  one_image gray8 (Zsmooth.input_file a) IMREAD_ANYDEPTH = Some gray8 /\
  data gray8 <> [] /\
  (forall image, write_ok (Zsmooth.output_file a) image = Ok tt) /\
  exists final,
    length final = length (data gray8) /\
    Zsmooth.main mean3 (one_image gray8) write_ok a world0
    = (Ok tt,
       World ["Processing depth image: " +:+ Zsmooth.input_file a;
              "Output will be saved as: " +:+ Zsmooth.output_file a;
              "Processed depth image saved as " +:+ Zsmooth.output_file a]
             [(Zsmooth.output_file a, final)]).
Proof.
  intros a.
  assert (Hne : data gray8 <> []) by discriminate.
  assert (Hwrite : forall image,
            write_ok (Zsmooth.output_file a) image = Ok tt) by reflexivity.
  split; [exact mean3_length|]. split; [reflexivity|]. split; [exact Hne|].
  split; [exact Hwrite|].
  exact (zsmooth_complete_run mean3 (one_image gray8) write_ok mean3_length
           a gray8 eq_refl Hne Hwrite).
Defined.


(** * Infinite samples *)

Section InfiniteSample.





End InfiniteSample.


Lemma normalize_image_raises_iff_empty_witness :
  let img := [Fin (qc 2 1); Fin (qc 2 1); NInf] in
  let out := [NaN; NaN; NaN] in
  normalize_image img = Ok out /\ length out = length img /\
  normalize_image [] = Raise (ValueError (zero_size_msg "minimum")).
Proof.
  intros img out.
  assert (Hout : normalize_image img = Ok out) by reflexivity.
  split; [exact Hout|].
  split; [exact (proj2 (proj2 (normalize_image_raises_iff_empty img)) out Hout)|].
  exact (proj2 (proj1 (normalize_image_raises_iff_empty [])) eq_refl).
Defined.
